(** * ISAF: the integrated strategic-analysis model of [isaf.py]

    A shallow embedding of the class [ISAF] (six framework operators, the
    coupled and time-decayed unified equation, the optimizer's objective
    and the validator), together with the properties stated about it.

    Numbers.  Every score of the program is a NumPy [float64].  The
    embedding keeps the three kinds of special value a [float64] can
    take (the two infinities and NaN) and their arithmetic, because the
    program divides by quantities that can be zero; on finite values the
    arithmetic is that of the real numbers: a decimal literal stands for
    the real number it spells, rounding and overflow are not modelled,
    and the two signed zeros are identified.

    Effects.  A method of the class reads and writes the fields of
    [self] and may raise; it is embedded as a function from the state of
    the object to an outcome and the state left behind. *)

From Stdlib Require Import Reals Lra ZArith.
From stdpp Require Import gmap strings list fin_maps.

(** ** NumPy scalars *)

Module F64.

Inductive float64 : Type :=
| Fin (r : R)
| Inf (neg : bool)
| NaN.

Definition Rneg (r : R) : bool := if Rlt_dec r 0 then true else false.

Definition is_finite (x : float64) : Prop :=
  match x with Fin _ => True | _ => False end.

Definition is_nan (x : float64) : Prop :=
  match x with NaN => True | _ => False end.

Definition fopp (x : float64) : float64 :=
  match x with
  | Fin a => Fin (- a)
  | Inf s => Inf (negb s)
  | NaN => NaN
  end.

Definition fadd (x y : float64) : float64 :=
  match x, y with
  | Fin a, Fin b => Fin (a + b)
  | Fin _, Inf s => Inf s
  | Inf s, Fin _ => Inf s
  | Inf s, Inf s' => if Bool.eqb s s' then Inf s else NaN
  | _, _ => NaN
  end.

Definition fsub (x y : float64) : float64 := fadd x (fopp y).

Definition fmul (x y : float64) : float64 :=
  match x, y with
  | Fin a, Fin b => Fin (a * b)
  | Fin a, Inf s => if Req_dec_T a 0 then NaN else Inf (xorb (Rneg a) s)
  | Inf s, Fin b => if Req_dec_T b 0 then NaN else Inf (xorb s (Rneg b))
  | Inf s, Inf s' => Inf (xorb s s')
  | _, _ => NaN
  end.

(** Division never raises: a zero divisor gives an infinity, or NaN for
    [0 / 0], as NumPy does (with a warning). *)
Definition fdiv (x y : float64) : float64 :=
  match x, y with
  | Fin a, Fin b =>
      if Req_dec_T b 0
      then (if Req_dec_T a 0 then NaN else Inf (Rneg a))
      else Fin (a / b)
  | Fin _, Inf _ => Fin 0
  | Inf s, Fin b => Inf (xorb s (Rneg b))
  | _, _ => NaN
  end.

Definition fsqrt (x : float64) : float64 :=
  match x with
  | Fin a => if Rlt_dec a 0 then NaN else Fin (sqrt a)
  | Inf false => Inf false
  | _ => NaN
  end.

Definition fabs (x : float64) : float64 :=
  match x with
  | Fin a => Fin (Rabs a)
  | Inf _ => Inf false
  | NaN => NaN
  end.

Definition fexp (x : float64) : float64 :=
  match x with
  | Fin a => Fin (exp a)
  | Inf false => Inf false
  | Inf true => Fin 0
  | NaN => NaN
  end.

(** The comparisons of IEEE 754: NaN is unordered. *)
Definition fle (x y : float64) : Prop :=
  match x, y with
  | Fin a, Fin b => (a <= b)%R
  | Inf true, (Fin _ | Inf _) => True
  | (Fin _ | Inf _), Inf false => True
  | _, _ => False
  end.

Definition flt (x y : float64) : Prop :=
  match x, y with
  | Fin a, Fin b => (a < b)%R
  | Inf true, (Fin _ | Inf false) => True
  | Fin _, Inf false => True
  | _, _ => False
  end.

Definition of_int (n : Z) : float64 := Fin (IZR n).
Definition of_len {A} (l : list A) : float64 := Fin (INR (length l)).

End F64.
Export F64.

Declare Scope f64_scope.
Delimit Scope f64_scope with f64.
Bind Scope f64_scope with float64.
Infix "+" := fadd : f64_scope.
Infix "-" := fsub : f64_scope.
Infix "*" := fmul : f64_scope.
Infix "/" := fdiv : f64_scope.
Notation "- x" := (fopp x) : f64_scope.

(** ** Exceptions and the monad of methods *)

(** The exceptions of Python the program can meet.  The specification
    speaks of them by role: [KeyError] is its MissingInputError,
    [IndexError] its IndexOutOfRangeError, [ValueError] its
    ShapeMismatchError and [ZeroDivisionError] its
    DivisionByZeroError. *)
Inductive exn : Type :=
| KeyError | IndexError | ValueError | ZeroDivisionError.

Inductive result (A : Type) : Type :=
| Ok (a : A)
| Raise (e : exn).
Arguments Ok {A} a.
Arguments Raise {A} e.

#[export] Instance result_ret : MRet result := @Ok.
#[export] Instance result_bind : MBind result := λ A B f r,
  match r with Ok a => f a | Raise e => Raise e end.
#[export] Instance result_fmap : FMap result := λ A B f r,
  match r with Ok a => Ok (f a) | Raise e => Raise e end.

(** ** Arrays *)

(** [np.sum] of a sequence and [np.mean] of an array; the mean of an
    empty array is [0.0 / 0] = NaN. *)
Definition np_sum (l : list float64) : float64 := fold_left fadd l (Fin 0).
Definition np_mean (l : list float64) : float64 := (np_sum l / of_len l)%f64.

(** [range(n)] for a Python integer [n]: empty when [n <= 0]. *)
Definition range (n : Z) : list Z := Z.of_nat <$> seq 0 (Z.to_nat n).

(** [a[i]] for an index taken from [range(..)]. *)
Definition index {A} (a : list A) (i : nat) : result A :=
  match a !! i with Some x => Ok x | None => Raise IndexError end.

(** [a[t]] on a one-dimensional array for an arbitrary Python integer:
    an index in [[-n, 0)] counts from the end. *)
Definition np_getitem {A} (a : list A) (t : Z) : result A :=
  let n := Z.of_nat (length a) in
  if ((0 <=? t) && (t <? n))%Z then index a (Z.to_nat t)
  else if ((- n <=? t) && (t <? 0))%Z then index a (Z.to_nat (n + t))
  else Raise IndexError.

(** Element-wise operation on two one-dimensional arrays, with NumPy's
    broadcasting of an array of length one. *)
Definition broadcast (op : float64 → float64 → float64)
    (xs ys : list float64) : result (list float64) :=
  if (length xs =? length ys)%nat then Ok (zip_with op xs ys)
  else match xs, ys with
       | [x], _ => Ok (op x <$> ys)
       | _, [y] => Ok ((λ x, op x y) <$> xs)
       | _, _ => Raise ValueError
       end.

(** ** The object *)

(** The tuple a setter stores under its framework's key. *)
Inductive fw_input : Type :=
| PestelData (factors : list string)
    (weights probabilities impacts : list float64)
| FiveForcesData (forces : list float64)
    (influence_matrix : list (list float64))
| SwotData (internal_factors external_factors : list float64)
    (interaction_tensor : list (list float64))
| BcgData (market_share growth_rate : list float64)
| AnsoffData (strategy_success strategy_risk : list float64)
| BlueOceanData (differentiation cost_leadership : list float64).

Record ISAF : Type := mkISAF {
  time_horizon : Z;
  temporal_coupling : list float64;
  framework_data : gmap string fw_input;
  coupling_matrices : gmap (string * string) float64
}.

Definition with_framework_data (fd : gmap string fw_input) (self : ISAF) : ISAF :=
  {| time_horizon := time_horizon self;
     temporal_coupling := temporal_coupling self;
     framework_data := fd;
     coupling_matrices := coupling_matrices self |}.

Definition M (A : Type) : Type := ISAF → result A * ISAF.

#[export] Instance M_ret : MRet M := λ A a self, (Ok a, self).
#[export] Instance M_bind : MBind M := λ A B f c self,
  match c self with
  | (Ok a, self') => f a self'
  | (Raise e, self') => (Raise e, self')
  end.

Definition raise {A} (e : exn) : M A := λ self, (Raise e, self).
Definition lift {A} (r : result A) : M A := λ self, (r, self).
Definition gets {A} (field : ISAF → A) : M A := λ self, (Ok (field self), self).
Definition modify (f : ISAF → ISAF) : M unit := λ self, (Ok tt, f self).

(** [self.framework_data[key]] *)
Definition getitem (key : string) : M fw_input :=
  fd ← gets framework_data;
  match fd !! key with
  | Some d => mret d
  | None => raise KeyError
  end.

(** [self.framework_data[key] = d] *)
Definition setitem (key : string) (d : fw_input) : M unit :=
  modify (λ self, with_framework_data (<[key := d]> (framework_data self)) self).

(** [np.exp(-0.1 * np.arange(time_horizon))] *)
Definition decay (i : Z) : float64 := fexp (Fin (-0.1) * of_int i)%f64.

Definition __init__ (time_horizon : Z) : ISAF :=
  {| time_horizon := time_horizon;
     temporal_coupling := decay <$> range time_horizon;
     framework_data := ∅;
     coupling_matrices := ∅ |}.

Definition set_pestel_data factors weights probabilities impacts : M unit :=
  setitem "pestel" (PestelData factors weights probabilities impacts).
Definition set_five_forces_data forces influence_matrix : M unit :=
  setitem "five_forces" (FiveForcesData forces influence_matrix).
Definition set_swot_data internal_factors external_factors interaction_tensor : M unit :=
  setitem "swot" (SwotData internal_factors external_factors interaction_tensor).
Definition set_bcg_data market_share growth_rate : M unit :=
  setitem "bcg" (BcgData market_share growth_rate).
Definition set_ansoff_data strategy_success strategy_risk : M unit :=
  setitem "ansoff" (AnsoffData strategy_success strategy_risk).
Definition set_blue_ocean_data differentiation cost_leadership : M unit :=
  setitem "blue_ocean" (BlueOceanData differentiation cost_leadership).

(** ** The six operators

    A key always holds the tuple its own setter stored; the branch for
    any other tuple stands for the failure of the unpacking. *)

Definition pestel_term (weights probabilities impacts : list float64)
    (i : nat) : result float64 :=
  w ← index weights i;
  p ← index probabilities i;
  x ← index impacts i;
  mret (w * p * x)%f64.

Definition pestel_operator : M float64 :=
  d ← getitem "pestel";
  match d with
  | PestelData factors weights probabilities impacts =>
      lift (terms ← mapM (pestel_term weights probabilities impacts)
                         (seq 0 (length factors));
            mret (np_sum terms))
  | _ => raise ValueError
  end.

(** [W[i, j]] *)
Definition index2 (W : list (list float64)) (i j : nat) : result float64 :=
  row ← index W i; index row j.

Definition five_forces_row (forces : list float64) (W : list (list float64))
    (i : nat) : result float64 :=
  f ← index forces i;
  ws ← mapM (index2 W i)
            (List.filter (λ j, negb (j =? i)%nat) (seq 0 (length forces)));
  mret (f * np_sum ws)%f64.

Definition five_forces_operator : M float64 :=
  d ← getitem "five_forces";
  match d with
  | FiveForcesData forces W =>
      lift (rows ← mapM (five_forces_row forces W) (seq 0 (length forces));
            mret (Fin 1 - np_sum rows / of_len forces)%f64)
  | _ => raise ValueError
  end.

Definition swot_operator : M float64 :=
  d ← getitem "swot";
  match d with
  | SwotData internal external tensor =>
      let tensor_sum := np_sum (concat tensor) in
      mret (tensor_sum / Fin (INR (length internal * length external)))%f64
  | _ => raise ValueError
  end.

Definition bcg_operator : M float64 :=
  d ← getitem "bcg";
  match d with
  | BcgData market_share growth_rate =>
      lift (np_mean <$> broadcast fmul market_share growth_rate)
  | _ => raise ValueError
  end.

Definition ansoff_operator : M float64 :=
  d ← getitem "ansoff";
  match d with
  | AnsoffData success risk =>
      lift (np_mean <$> broadcast fsub success risk)
  | _ => raise ValueError
  end.

Definition blue_ocean_operator : M float64 :=
  d ← getitem "blue_ocean";
  match d with
  | BlueOceanData differentiation cost =>
      lift (np_mean <$> broadcast fdiv differentiation cost)
  | _ => raise ValueError
  end.

(** ** The unified equation *)

(** [self.coupling_matrices.get((a, b), 0.3)] *)
Definition coupling (cm : gmap (string * string) float64)
    (a b : string) : float64 :=
  default (Fin 0.3) (cm !! (a, b)).

Definition coupling_effect (cm : gmap (string * string) float64)
    (pestel forces swot bcg ansoff blue_ocean : float64) : float64 :=
  (coupling cm "pestel" "five_forces" * pestel * forces +
   coupling cm "five_forces" "swot" * forces * swot +
   coupling cm "swot" "bcg" * swot * bcg +
   coupling cm "bcg" "ansoff" * bcg * ansoff +
   coupling cm "ansoff" "blue_ocean" * ansoff * blue_ocean)%f64.

Definition strategic_state (cm : gmap (string * string) float64)
    (pestel forces swot bcg ansoff blue_ocean : float64) : float64 :=
  (pestel + forces + swot + bcg + ansoff + blue_ocean +
   coupling_effect cm pestel forces swot bcg ansoff blue_ocean)%f64.

Definition unified_hyperfunctional_equation (t : Z) : M float64 :=
  pestel ← pestel_operator;
  forces ← five_forces_operator;
  swot ← swot_operator;
  bcg ← bcg_operator;
  ansoff ← ansoff_operator;
  blue_ocean ← blue_ocean_operator;
  cm ← gets coupling_matrices;
  tc ← gets temporal_coupling;
  d ← lift (np_getitem tc t);
  mret (strategic_state cm pestel forces swot bcg ansoff blue_ocean * d)%f64.

(** ** The optimizer

    [scipy.optimize.minimize] is not part of the program.  Whatever its
    method, it can only evaluate the objective at candidates of its
    choice, each choice depending on the values seen so far, and
    finally report a point [x] and a value [fun]: a solver is the tree
    of these choices. *)

Record OptimizeResult : Type := mkResult {
  res_x : list float64;
  res_fun : float64
}.

Inductive solver : Type :=
| Report (res : OptimizeResult)
| Evaluate (candidate : list float64) (next : float64 → solver).

(** The solver at work on an objective that acts on the object. *)
Fixpoint run_solver (objective : list float64 → M float64)
    (s : solver) : M OptimizeResult :=
  match s with
  | Report res => mret res
  | Evaluate candidate next =>
      value ← objective candidate;
      run_solver objective (next value)
  end.

(** [self.framework_data['five_forces'][0]] and [[1]] *)
Definition five_forces_0 (d : fw_input) : M (list float64) :=
  match d with FiveForcesData forces _ => mret forces | _ => raise ValueError end.
Definition five_forces_1 (d : fw_input) : M (list (list float64)) :=
  match d with FiveForcesData _ W => mret W | _ => raise ValueError end.

Definition objective (decisions : list float64) : M float64 :=
  d ← getitem "five_forces";
  W ← five_forces_1 d;
  _ ← setitem "five_forces" (FiveForcesData decisions W);
  T ← gets time_horizon;
  values ← mapM unified_hyperfunctional_equation (range T);
  mret (- np_sum values)%f64.

(** [np.ones(n) * 0.5] and [[(0, 1)] * n] *)
Definition initial_guess (n : nat) : list float64 :=
  replicate n (Fin 1 * Fin 0.5)%f64.
Definition bounds (n : nat) : list (float64 * float64) :=
  replicate n (Fin 0, Fin 1).

Section Optimizer.

(** [minimize(_, x0, bounds=bounds, method='SLSQP')] *)
Variable minimize : list float64 → list (float64 * float64) → solver.

Definition optimize_strategy : M (list float64 * float64) :=
  d ← getitem "five_forces";
  forces ← five_forces_0 d;
  let x0 := initial_guess (length forces) in
  res ← run_solver objective (minimize x0 (bounds (length x0)));
  mret (res_x res, (- res_fun res)%f64).

End Optimizer.

(** ** The validator *)

Record metrics : Type := mkMetrics {
  RMSE : float64;
  MAE : float64;
  R_squared : float64
}.

(** [a ** 2] on an array *)
Definition squares (a : list float64) : list float64 := (λ x, x * x)%f64 <$> a.

Definition validate_model (actual_outcomes : list float64) : M metrics :=
  T ← gets time_horizon;
  predicted_outcomes ← mapM unified_hyperfunctional_equation (range T);
  residuals ← lift (broadcast fsub actual_outcomes predicted_outcomes);
  let rmse := fsqrt (np_mean (squares residuals)) in
  let mae := np_mean (fabs <$> residuals) in
  let deviations := (λ a, a - np_mean actual_outcomes)%f64 <$> actual_outcomes in
  let r_squared :=
    (Fin 1 - np_sum (squares residuals) / np_sum (squares deviations))%f64 in
  mret {| RMSE := rmse; MAE := mae; R_squared := r_squared |}.

(** What a call leaves behind, returns or raises. *)
Definition state_after {A} (c : M A) (self : ISAF) : ISAF := (c self).2.
Definition returns {A} (c : M A) (self : ISAF) (a : A) : Prop :=
  (c self).1 = Ok a.
Definition raises {A} (c : M A) (self : ISAF) (e : exn) : Prop :=
  (c self).1 = Raise e.

(** ** Histories of an object

    Every public method of the class, and the object a sequence of calls
    leaves behind, whatever each call returned or raised. *)

Inductive call : Type :=
| SetPestelData (factors : list string) (weights probabilities impacts : list float64)
| SetFiveForcesData (forces : list float64) (influence_matrix : list (list float64))
| SetSwotData (internal_factors external_factors : list float64)
    (interaction_tensor : list (list float64))
| SetBcgData (market_share growth_rate : list float64)
| SetAnsoffData (strategy_success strategy_risk : list float64)
| SetBlueOceanData (differentiation cost_leadership : list float64)
| PestelOperator | FiveForcesOperator | SwotOperator
| BcgOperator | AnsoffOperator | BlueOceanOperator
| UnifiedHyperfunctionalEquation (t : Z)
| OptimizeStrategy
| ValidateModel (actual_outcomes : list float64).

(** The key a call stores under, if it is a setter. *)
Definition sets_key (c : call) : option string :=
  match c with
  | SetPestelData _ _ _ _ => Some "pestel"
  | SetFiveForcesData _ _ => Some "five_forces"
  | SetSwotData _ _ _ => Some "swot"
  | SetBcgData _ _ => Some "bcg"
  | SetAnsoffData _ _ => Some "ansoff"
  | SetBlueOceanData _ _ => Some "blue_ocean"
  | _ => None
  end.

Section Histories.

Variable minimize : list float64 → list (float64 * float64) → solver.

Definition perform (c : call) (self : ISAF) : ISAF :=
  match c with
  | SetPestelData f w p i => state_after (set_pestel_data f w p i) self
  | SetFiveForcesData f W => state_after (set_five_forces_data f W) self
  | SetSwotData i e t => state_after (set_swot_data i e t) self
  | SetBcgData m g => state_after (set_bcg_data m g) self
  | SetAnsoffData s r => state_after (set_ansoff_data s r) self
  | SetBlueOceanData d c => state_after (set_blue_ocean_data d c) self
  | PestelOperator => state_after pestel_operator self
  | FiveForcesOperator => state_after five_forces_operator self
  | SwotOperator => state_after swot_operator self
  | BcgOperator => state_after bcg_operator self
  | AnsoffOperator => state_after ansoff_operator self
  | BlueOceanOperator => state_after blue_ocean_operator self
  | UnifiedHyperfunctionalEquation t =>
      state_after (unified_hyperfunctional_equation t) self
  | OptimizeStrategy => state_after (optimize_strategy minimize) self
  | ValidateModel a => state_after (validate_model a) self
  end.

Definition history (T : Z) (calls : list call) : ISAF :=
  fold_left (λ self c, perform c self) calls (__init__ T).

End Histories.

(** ** The scenario of the specification's end-to-end test *)

Definition scenario_at (T : Z) : ISAF :=
  state_after
    (_ ← set_pestel_data ["A"; "B"] [Fin 0.6; Fin 0.4] [Fin 0.5; Fin 0.5]
           [Fin 10; Fin 20];
     _ ← set_five_forces_data [Fin 0.2; Fin 0.3]
           [[Fin 0; Fin 1]; [Fin 1; Fin 0]];
     _ ← set_swot_data [Fin 1; Fin 1] [Fin 1] [[Fin 2]; [Fin 2]];
     _ ← set_bcg_data [Fin 0.5] [Fin 0.2];
     _ ← set_ansoff_data [Fin 0.7] [Fin 0.1];
     set_blue_ocean_data [Fin 0.8] [Fin 0.4])
    (__init__ T).

Definition scenario : ISAF := scenario_at 3.

(** Two degenerate inputs: a SWOT set with no factors at all, and a Blue
    Ocean set whose only cost entry is zero. *)
Definition swot_empty : ISAF :=
  state_after (set_swot_data [] [] []) (__init__ 3).
Definition blue_ocean_zero_cost : ISAF :=
  state_after (set_blue_ocean_data [Fin 0.8] [Fin 0]) (__init__ 3).

(** ** Notions used in the statements *)

(** A computation that never writes to the object. *)
Definition readonly {A} (c : M A) : Prop := ∀ self, (c self).2 = self.

(** The object still carries the decay vector its constructor computed;
    no method writes to it. *)
Definition constructed (self : ISAF) : Prop :=
  temporal_coupling self = temporal_coupling (__init__ (time_horizon self)).

Definition total_variance (actual : list float64) : float64 :=
  np_sum (squares ((λ a, a - np_mean actual)%f64 <$> actual)).

(** [x] is neither negative nor minus infinity (it may be NaN). *)
Definition not_negative (x : float64) : Prop :=
  match x with Fin a => (0 <= a)%R | Inf s => s = false | NaN => True end.

(** [x] is not above [y], or one of them is NaN. *)
Definition not_above (x y : float64) : Prop := is_nan x ∨ is_nan y ∨ fle x y.

(** The term of index [j], when the three arrays reach that far. *)
Definition pestel_term_at (weights probabilities impacts : list float64)
    (j : nat) : float64 :=
  (default NaN (weights !! j) * default NaN (probabilities !! j)
   * default NaN (impacts !! j))%f64.

(** The object once the candidate has been stored as the Five Forces
    vector, next to the influence matrix [W]. *)
Definition with_forces (candidate : list float64) (W : list (list float64))
    (self : ISAF) : ISAF :=
  with_framework_data
    (<["five_forces" := FiveForcesData candidate W]> (framework_data self)) self.

(** The value of the objective at a candidate: the negated sum of the
    unified equation over the time horizon, the candidate stored. *)
Definition objective_value (candidate : list float64)
    (W : list (list float64)) (self : ISAF) : result float64 :=
  (λ values, - np_sum values)%f64
    <$> (mapM unified_hyperfunctional_equation (range (time_horizon self))
              (with_forces candidate W self)).1.

Inductive framework : Type :=
| Pestel | FiveForces | Swot | Bcg | Ansoff | BlueOcean.

Definition key_of (fw : framework) : string :=
  match fw with
  | Pestel => "pestel" | FiveForces => "five_forces" | Swot => "swot"
  | Bcg => "bcg" | Ansoff => "ansoff" | BlueOcean => "blue_ocean"
  end.

Definition operator_of (fw : framework) : M float64 :=
  match fw with
  | Pestel => pestel_operator | FiveForces => five_forces_operator
  | Swot => swot_operator | Bcg => bcg_operator
  | Ansoff => ansoff_operator | BlueOcean => blue_ocean_operator
  end.

(** A solver that evaluates the objective at its starting point and
    reports that point with the value found. *)
Definition first_iterate (x0 : list float64)
    (bnds : list (float64 * float64)) : solver :=
  Evaluate x0 (λ value, Report {| res_x := x0; res_fun := value |}).

(** A solver that evaluates the objective at its starting point, moves
    to the upper corner of the box, evaluates the objective there and
    reports that corner with the value found. *)
Definition upper_corner (x0 : list float64)
    (bnds : list (float64 * float64)) : solver :=
  Evaluate x0 (λ _,
    Evaluate (snd <$> bnds) (λ value,
      Report {| res_x := snd <$> bnds; res_fun := value |})).

(** [x] respects the box constraints [bnds], element by element. *)
Definition within (bnds : list (float64 * float64)) (x : list float64) : Prop :=
  Forall2 (λ b xi, fle b.1 xi ∧ fle xi b.2) bnds x.

(** What the program relies on from [minimize]: every candidate has the
    dimension of the problem, the reported point respects the bounds,
    and the reported value is the one the objective returned for the
    reported point.  [seen] lists the evaluations made so far. *)
Fixpoint honest (bnds : list (float64 * float64))
    (seen : list (list float64 * float64)) (s : solver) : Prop :=
  match s with
  | Report res =>
      within bnds (res_x res) ∧ (res_x res, res_fun res) ∈ seen
  | Evaluate candidate next =>
      length candidate = length bnds ∧
      ∀ value, honest bnds ((candidate, value) :: seen) (next value)
  end.

(** ** Further notions used in the statements *)

(** The tuple [d] is the one the setter of [key] stores. *)
Definition well_tagged (key : string) (d : fw_input) : Prop :=
  match d with
  | PestelData _ _ _ _ => key = "pestel"
  | FiveForcesData _ _ => key = "five_forces"
  | SwotData _ _ _ => key = "swot"
  | BcgData _ _ => key = "bcg"
  | AnsoffData _ _ => key = "ansoff"
  | BlueOceanData _ _ => key = "blue_ocean"
  end.

(** The place of a framework in the order in which the unified equation
    evaluates the operators. *)
Definition rank (fw : framework) : nat :=
  match fw with
  | Pestel => 0 | FiveForces => 1 | Swot => 2
  | Bcg => 3 | Ansoff => 4 | BlueOcean => 5
  end.

(** The five ordered pairs the unified equation looks up. *)
Definition adjacent_pairs : list (string * string) :=
  [("pestel", "five_forces"); ("five_forces", "swot"); ("swot", "bcg");
   ("bcg", "ansoff"); ("ansoff", "blue_ocean")].

(** The candidates a solver evaluates, in order, when [value_at] is what
    the objective answers: the run stops at the first failure. *)
Fixpoint candidates (value_at : list float64 → result float64)
    (s : solver) : list (list float64) :=
  match s with
  | Report _ => []
  | Evaluate candidate next =>
      candidate ::
        match value_at candidate with
        | Ok value => candidates value_at (next value)
        | Raise _ => []
        end
  end.

(** ** The documentation clean-up script ([clean_emojis.py])

    A text is the list of its Unicode code points. *)

(** The ranges of the character class, in the order of the pattern. *)
Definition emoji_ranges : list (N * N) :=
  [ (0x1F1E0, 0x1F1FF); (0x1F300, 0x1F5FF); (0x1F600, 0x1F64F);
    (0x1F680, 0x1F6FF); (0x1F700, 0x1F77F); (0x1F780, 0x1F7FF);
    (0x1F800, 0x1F8FF); (0x1F900, 0x1F9FF); (0x1FA00, 0x1FA6F);
    (0x1FA70, 0x1FAFF); (0x2702, 0x27B0); (0x24C2, 0x1F251) ]%N.

Definition in_range (c : N) (r : N * N) : bool :=
  ((r.1 <=? c) && (c <=? r.2))%N.

(** [c] matches the character class. *)
Definition is_emoji (c : N) : bool := existsb (in_range c) emoji_ranges.

(** [emoji_pattern.sub('', text)]: every maximal run of characters of
    the class is replaced by the empty string; the scan consumes a run
    one character at a time. *)
Fixpoint remove_emojis (text : list N) : list N :=
  match text with
  | [] => []
  | c :: rest =>
      if is_emoji c then remove_emojis rest else c :: remove_emojis rest
  end.

(** [files] *)
Definition files : list string :=
  [ "AFAS_MVP_COMPLETION_PLAN.md"; "API_DOCUMENTATION.md"; "CHANGELOG.md";
    "USER_HANDBOOK.md"; "DOCUMENTATION_SUMMARY.md";
    "ISAF_RESULTS_EXPLANATION.md"; "README.md"; "DOCUMENTATION.md";
    "FIXES_COMPLETED.md"; "ISAF_Complete_Analysis_Report.md" ]%string.

(** What a name of the working directory stands for: a regular file
    with its decoded content, writable or not, or something that exists
    but cannot be read as UTF-8 text (a directory, a file without read
    permission, bytes that do not decode). *)
Inductive entry : Type :=
| Regular (content : list N) (writable : bool)
| Unreadable.

(** The line separator of the platform, [os.linesep]. *)
Inductive platform : Type := Posix | Windows.

Definition linesep (os : platform) : list N :=
  match os with Posix => [10] | Windows => [13; 10] end%N.

(** [f.read()] on a file opened in text mode: the line endings CR LF
    and CR are read as LF. *)
Fixpoint read_text (content : list N) : list N :=
  match content with
  | [] => []
  | c :: rest =>
      if (c =? 13)%N then
        match rest with
        | c' :: rest' =>
            if (c' =? 10)%N then 10%N :: read_text rest'
            else 10%N :: read_text rest
        | [] => [10%N]
        end
      else c :: read_text rest
  end.

(** [f.write(text)] on a file opened in text mode: every LF is written
    as the line separator of the platform. *)
Definition write_text (os : platform) (text : list N) : list N :=
  flat_map (λ c, if (c =? 10)%N then linesep os else [c]) text.

(** The lines the script prints. *)
Inductive message : Type :=
| Starting
| Cleaned (filename : string)
| ErrorCleaning (filename : string)
| FileNotFound (filename : string)
| Completed.

(** [print(line)] on a standard output that can encode the two status
    marks U+2713 and U+2717 ([marks]) or cannot.  Every line but the
    first and the last opens with one of them; a standard output that
    cannot encode it prints nothing of the line and raises
    [UnicodeEncodeError], here [None]. *)
Definition print (marks : bool) (line : message) : option message :=
  match line with
  | Starting | Completed => Some line
  | _ => if marks then Some line else None
  end.

(** The body of the loop, for one file name: the working directory it
    leaves and the line it printed, or [None] when a [print] outside
    the [try] block raised.  The file is written before the [try] block
    prints; a [print] that raises inside the block is caught like any
    other exception, and the handler prints in its turn. *)
Definition clean_file (os : platform) (marks : bool)
    (fs : gmap string entry) (filename : string)
    : gmap string entry * option message :=
  match fs !! filename with
  | Some e =>
      let attempt :=
        match e with
        | Regular content true =>
            let cleaned_content := remove_emojis (read_text content) in
            (<[filename := Regular (write_text os cleaned_content) true]> fs,
             print marks (Cleaned filename))
        | _ => (fs, None)
        end in
      match attempt.2 with
      | Some line => (attempt.1, Some line)
      | None => (attempt.1, print marks (ErrorCleaning filename))
      end
  | None => (fs, print marks (FileNotFound filename))
  end.

(** The loop over a list of file names, with the lines printed so far:
    the working directory left, the lines printed, and whether the loop
    came to its end ([false] when an exception stopped it). *)
Fixpoint clean_files (os : platform) (marks : bool) (names : list string)
    (fs : gmap string entry) (log : list message)
    : gmap string entry * list message * bool :=
  match names with
  | [] => (fs, log, true)
  | filename :: names =>
      match clean_file os marks fs filename with
      | (fs', Some line) => clean_files os marks names fs' (log ++ [line])
      | (fs', None) => (fs', log, false)
      end
  end.

(** The script: the working directory it leaves, the lines it printed,
    and whether it ran to its end. *)
Definition clean_emojis (os : platform) (marks : bool)
    (fs : gmap string entry) : gmap string entry * list message * bool :=
  match print marks Starting with
  | Some line =>
      match clean_files os marks files fs [line] with
      | (fs', log, true) =>
          match print marks Completed with
          | Some line' => (fs', log ++ [line'], true)
          | None => (fs', log, false)
          end
      | (fs', log, false) => (fs', log, false)
      end
  | None => (fs, [], false)
  end.

(** What the loop body makes of an entry it is run on. *)
Definition cleaned (os : platform) (e : entry) : entry :=
  match e with
  | Regular content true =>
      Regular (write_text os (remove_emojis (read_text content))) true
  | _ => e
  end.

(** The line the loop body prints for an entry, on a standard output
    that can encode it. *)
Definition report (filename : string) (e : option entry) : message :=
  match e with
  | Some (Regular _ true) => Cleaned filename
  | Some _ => ErrorCleaning filename
  | None => FileNotFound filename
  end.

(** The names the loop gets to: all of them, or the first only when the
    standard output cannot encode the status marks. *)
Definition reached (marks : bool) (names : list string) : list string :=
  if marks then names else take 1 names.

(** * Properties *)

(** ** The monad *)

Lemma bind_Ok {A B} (c : M A) (k : A → M B) self a self' :
  c self = (Ok a, self') → (c ≫= k) self = k a self'.
Proof. intros H. unfold mbind, M_bind. by rewrite H. Qed.

Lemma bind_Raise {A B} (c : M A) (k : A → M B) self e self' :
  c self = (Raise e, self') → (c ≫= k) self = (Raise e, self').
Proof. intros H. unfold mbind, M_bind. by rewrite H. Qed.

Lemma readonly_ret {A} (a : A) : readonly (mret a).
Proof. done. Qed.
Lemma readonly_raise {A} e : readonly (@raise A e).
Proof. done. Qed.
Lemma readonly_lift {A} (r : result A) : readonly (lift r).
Proof. done. Qed.
Lemma readonly_gets {A} (field : ISAF → A) : readonly (gets field).
Proof. done. Qed.

Lemma readonly_bind {A B} (c : M A) (k : A → M B) :
  readonly c → (∀ a, readonly (k a)) → readonly (c ≫= k).
Proof.
  intros Hc Hk self. unfold mbind, M_bind.
  specialize (Hc self). destruct (c self) as [[a|e] self']; simpl in *; subst.
  - apply Hk.
  - done.
Qed.

Lemma readonly_getitem key : readonly (getitem key).
Proof.
  apply readonly_bind; [apply readonly_gets|].
  intros fd. destruct (fd !! key); [apply readonly_ret | apply readonly_raise].
Qed.

Lemma readonly_mapM {A B} (f : A → M B) (l : list A) :
  (∀ a, readonly (f a)) → readonly (mapM f l).
Proof.
  intros Hf. induction l as [|a l IH]; simpl.
  - apply readonly_ret.
  - apply readonly_bind; [apply Hf|]. intros b.
    apply readonly_bind; [apply IH|]. intros bs. apply readonly_ret.
Qed.

Create HintDb readonly.
#[export] Hint Resolve readonly_ret readonly_raise readonly_lift readonly_gets
  readonly_getitem : readonly.

Ltac readonly_operator :=
  apply readonly_bind; [apply readonly_getitem|];
  intros []; auto with readonly.

Lemma readonly_pestel_operator : readonly pestel_operator.
Proof. readonly_operator. Qed.
Lemma readonly_five_forces_operator : readonly five_forces_operator.
Proof. readonly_operator. Qed.
Lemma readonly_swot_operator : readonly swot_operator.
Proof. readonly_operator. Qed.
Lemma readonly_bcg_operator : readonly bcg_operator.
Proof. readonly_operator. Qed.
Lemma readonly_ansoff_operator : readonly ansoff_operator.
Proof. readonly_operator. Qed.
Lemma readonly_blue_ocean_operator : readonly blue_ocean_operator.
Proof. readonly_operator. Qed.

#[export] Hint Resolve readonly_pestel_operator readonly_five_forces_operator
  readonly_swot_operator readonly_bcg_operator readonly_ansoff_operator
  readonly_blue_ocean_operator : readonly.

Lemma readonly_unified_hyperfunctional_equation t :
  readonly (unified_hyperfunctional_equation t).
Proof.
  unfold unified_hyperfunctional_equation.
  repeat (apply readonly_bind; [auto with readonly|]; intros ?).
  apply readonly_ret.
Qed.

(** What a read-only call returns determines the whole call. *)
Lemma returns_readonly {A} (c : M A) self a :
  readonly c → returns c self a → c self = (Ok a, self).
Proof.
  intros Hc Hr. specialize (Hc self). unfold returns in Hr.
  destruct (c self) as [r self']; simpl in *. by subst.
Qed.

(** ** Arithmetic of NumPy scalars *)

Lemma Rneg_nonneg a : (0 <= a)%R → Rneg a = false.
Proof. intros Ha. unfold Rneg. destruct (Rlt_dec a 0); [lra | done]. Qed.

Lemma fdiv_Fin a b : b ≠ 0%R → (Fin a / Fin b)%f64 = Fin (a / b).
Proof. intros Hb. unfold fdiv. by destruct (Req_dec_T b 0). Qed.

Lemma fmul_Inf_Fin_pos s a : (0 < a)%R → (Inf s * Fin a)%f64 = Inf s.
Proof.
  intros Ha. simpl. destruct (Req_dec_T a 0); [lra|].
  rewrite Rneg_nonneg by lra. by destruct s.
Qed.

Lemma fmul_1_r x : (x * Fin 1)%f64 = x.
Proof.
  destruct x as [a|s|]; [|by apply fmul_Inf_Fin_pos; lra|done].
  simpl. f_equal. lra.
Qed.

Lemma fmul_Fin_pos_assoc x a b :
  (0 < a)%R → (0 < b)%R → (x * Fin a * Fin b)%f64 = (x * Fin (a * b))%f64.
Proof.
  intros Ha Hb. assert (0 < a * b)%R by nra.
  destruct x as [r|s|]; [|by rewrite !fmul_Inf_Fin_pos|done].
  simpl. f_equal. lra.
Qed.

Lemma fopp_involutive x : (- - x)%f64 = x.
Proof.
  destruct x as [a|s|]; simpl; [|by destruct s|done]. f_equal. lra.
Qed.

Lemma fsqrt_zero : fsqrt (Fin 0) = Fin 0.
Proof.
  unfold fsqrt. destruct (Rlt_dec 0 0); [lra|]. by rewrite sqrt_0.
Qed.

Lemma fdiv_pos_zero a : (0 < a)%R → (Fin a / Fin 0)%f64 = Inf false.
Proof.
  intros Ha. unfold fdiv. destruct (Req_dec_T 0 0); [|lra].
  destruct (Req_dec_T a 0); [lra|]. by rewrite Rneg_nonneg by lra.
Qed.

Lemma fadd_not_finite_l x y : ¬ is_finite x → ¬ is_finite (x + y).
Proof. destruct x as [a|s|], y as [b|s'|]; simpl; try done. by destruct (Bool.eqb s s'). Qed.

Lemma fadd_not_finite_r x y : ¬ is_finite y → ¬ is_finite (x + y).
Proof. destruct x as [a|s|], y as [b|s'|]; simpl; try done. by destruct (Bool.eqb s s'). Qed.

Lemma fdiv_zero_not_finite x : ¬ is_finite (x / Fin 0).
Proof.
  destruct x as [a|s|]; simpl; try tauto.
  destruct (Req_dec_T 0 0); [|lra]. destruct (Req_dec_T a 0); simpl; tauto.
Qed.

Lemma fdiv_NaN_r x : (x / NaN)%f64 = NaN.
Proof. by destruct x. Qed.

Lemma fdiv_not_finite_Fin x b : ¬ is_finite x → ¬ is_finite (x / Fin b).
Proof. by destruct x. Qed.

Lemma fmul_self_not_negative x : not_negative (x * x).
Proof.
  destruct x as [a|s|]; simpl; [|by destruct s|done].
  pose proof (Rle_0_sqr a) as H. by unfold Rsqr in H.
Qed.

Lemma fadd_not_negative x y :
  not_negative x → not_negative y → not_negative (x + y).
Proof.
  destruct x as [a|s|], y as [b|s'|]; simpl; try done.
  - lra.
  - by intros -> ->.
Qed.

(** One minus a quotient by zero of something not negative. *)
Lemma one_minus_fdiv_zero x :
  not_negative x →
  (Fin 1 - x / Fin 0)%f64 = NaN ∨ (Fin 1 - x / Fin 0)%f64 = Inf true.
Proof.
  destruct x as [a|s|]; simpl.
  - intros Ha. destruct (Req_dec_T 0 0); [|lra].
    destruct (Req_dec_T a 0); [by left|].
    rewrite Rneg_nonneg by done. by right.
  - intros ->. rewrite Rneg_nonneg by lra. by right.
  - by left.
Qed.

Lemma fadd_NaN_r x : (x + NaN)%f64 = NaN.
Proof. by destruct x. Qed.

Ltac f64_cases :=
  unfold not_above, Rneg; simpl;
  repeat match goal with
    | |- context [Req_dec_T ?a ?b] => destruct (Req_dec_T a b); simpl
    | |- context [Rlt_dec ?a ?b] => destruct (Rlt_dec a b); simpl
    | |- context [Bool.eqb ?a ?b] => destruct a, b; simpl
    | s : bool |- _ => destruct s; simpl
    end;
  try tauto; try (right; right; nra); try lra.

Lemma not_above_refl x : not_above x x.
Proof. destruct x as [a|s|]; f64_cases. Qed.

Lemma not_above_not_flt x y : not_above x y → ¬ flt y x.
Proof.
  destruct x as [a|s|], y as [b|s'|]; unfold not_above; simpl;
    try tauto; try (destruct s); try (destruct s'); simpl; try tauto.
  intros [?|[?|?]]; [done|done|lra].
Qed.

Lemma not_above_fle x y : not_above x y → ¬ is_nan x → ¬ is_nan y → fle x y.
Proof. unfold not_above. tauto. Qed.

Lemma fadd_not_above x x' y y' :
  not_above x x' → not_above y y' → not_above (x + y) (x' + y').
Proof.
  destruct x as [a|s|], x' as [a'|s'|], y as [b|t|], y' as [b'|t'|];
    unfold not_above; simpl; intros Hx Hy;
    repeat match goal with s : bool |- _ => destruct s; simpl in * end;
    try tauto.
  right; right. lra.
Qed.

Lemma fmul_not_above c x x' :
  fle (Fin 0) c → fle x x' → not_above (c * x) (c * x').
Proof.
  destruct c as [c|s|], x as [a|t|], x' as [a'|t'|]; simpl;
    intros Hc Hx; try tauto; f64_cases.
Qed.

(** ** Arrays and sums *)

Lemma length_range n : length (range n) = Z.to_nat n.
Proof. unfold range. by rewrite length_fmap, length_seq. Qed.

Lemma lookup_range n (i : nat) :
  (i < Z.to_nat n)%nat → range n !! i = Some (Z.of_nat i).
Proof.
  intros Hi. unfold range. rewrite list_lookup_fmap, lookup_seq_lt by done.
  done.
Qed.

Lemma elem_of_range n t : t ∈ range n → (0 ≤ t < n)%Z.
Proof.
  unfold range. intros (i & -> & Hi)%list_elem_of_fmap.
  apply elem_of_seq in Hi. lia.
Qed.

Lemma range_ge_2 T : (2 ≤ T)%Z → ∃ rest, range T = 0%Z :: 1%Z :: rest.
Proof.
  intros HT. unfold range.
  destruct (Z.to_nat T) as [|[|n]] eqn:Hn; [lia|lia|].
  simpl. eauto.
Qed.

Section Getitem.
Context {A : Type} (a : list A) (t : Z).
Let n := Z.of_nat (length a).

Lemma np_getitem_forward :
  (0 ≤ t < n)%Z → np_getitem a t = index a (Z.to_nat t).
Proof.
  intros Ht. unfold np_getitem. fold n.
  destruct (Z.leb_spec 0 t), (Z.ltb_spec t n); simpl; done || lia.
Qed.

Lemma np_getitem_backward :
  (- n ≤ t < 0)%Z → np_getitem a t = index a (Z.to_nat (n + t)).
Proof.
  intros Ht. unfold np_getitem. fold n.
  destruct (Z.leb_spec 0 t), (Z.ltb_spec t n), (Z.leb_spec (- n) t),
    (Z.ltb_spec t 0); simpl; done || lia.
Qed.

Lemma np_getitem_outside :
  (t < - n ∨ n ≤ t)%Z → np_getitem a t = Raise IndexError.
Proof.
  intros Ht. unfold np_getitem. fold n.
  destruct (Z.leb_spec 0 t), (Z.ltb_spec t n), (Z.leb_spec (- n) t),
    (Z.ltb_spec t 0); simpl; done || lia.
Qed.
End Getitem.

Lemma broadcast_same_length op xs ys :
  length xs = length ys → broadcast op xs ys = Ok (zip_with op xs ys).
Proof. intros H. unfold broadcast. by rewrite (proj2 (Nat.eqb_eq _ _) H). Qed.

Lemma mapM_Ok {A B} (f : A → M B) (g : A → B) (l : list A) self :
  (∀ x, x ∈ l → f x self = (Ok (g x), self)) →
  mapM f l self = (Ok (g <$> l), self).
Proof.
  induction l as [|x l IH]; intros Hf; simpl; [done|].
  rewrite (bind_Ok _ _ _ _ _ (Hf x (list_elem_of_here _ _))).
  rewrite (bind_Ok _ _ _ (g <$> l) self); [done|].
  apply IH. intros y Hy. apply Hf. by apply list_elem_of_further.
Qed.

Lemma mapM_result_Ok {A B} (f : A → result B) (g : A → B) (l : list A) :
  (∀ x, x ∈ l → f x = Ok (g x)) → mapM f l = Ok (g <$> l).
Proof.
  induction l as [|x l IH]; intros Hf; simpl; [done|].
  rewrite (Hf x (list_elem_of_here _ _)). simpl.
  rewrite IH; [done|]. intros y Hy. apply Hf. by apply list_elem_of_further.
Qed.

Lemma mapM_result_inv {A B} (f : A → result B) (l : list A) ys :
  mapM f l = Ok ys → ∀ x, x ∈ l → ∃ y, f x = Ok y.
Proof.
  revert ys. induction l as [|a l IH]; intros ys H x Hx.
  - by apply elem_of_nil in Hx.
  - simpl in H. destruct (f a) as [b|e] eqn:Hfa; [|done]. simpl in H.
    destruct (mapM f l) as [bs|e] eqn:Hl; [|done].
    apply elem_of_cons in Hx as [->|Hx]; [eauto|]. by eapply IH.
Qed.

Lemma mapM_result_total {A B} (f : A → result B) (l : list A) :
  (∀ x, x ∈ l → ∃ y, f x = Ok y) → ∃ ys, mapM f l = Ok ys.
Proof.
  induction l as [|a l IH]; intros H; simpl; [by eexists|].
  destruct (H a (list_elem_of_here _ _)) as [b ->].
  destruct IH as [bs ->]; [|by eexists].
  intros x Hx. apply H. by apply list_elem_of_further.
Qed.

Lemma fold_left_fadd_not_finite l acc :
  ¬ is_finite acc → ¬ is_finite (fold_left fadd l acc).
Proof.
  revert acc. induction l as [|x l IH]; intros acc Hacc; simpl; [done|].
  by apply IH, fadd_not_finite_l.
Qed.

Lemma np_sum_not_finite l x :
  x ∈ l → ¬ is_finite x → ¬ is_finite (np_sum l).
Proof.
  unfold np_sum. generalize (Fin 0). intros acc Hx Hnf. revert acc.
  induction l as [|y l IH]; intros acc; simpl.
  - by apply elem_of_nil in Hx.
  - apply elem_of_cons in Hx as [->|Hx].
    + by apply fold_left_fadd_not_finite, fadd_not_finite_r.
    + by apply IH.
Qed.

Lemma np_mean_not_finite l x :
  x ∈ l → ¬ is_finite x → ¬ is_finite (np_mean l).
Proof. intros Hx Hnf. by eapply fdiv_not_finite_Fin, np_sum_not_finite. Qed.

Lemma np_sum_squares_not_negative l : not_negative (np_sum (squares l)).
Proof.
  unfold np_sum. assert (not_negative (Fin 0)) as Hacc by (simpl; lra).
  revert Hacc. generalize (Fin 0).
  induction l as [|x l IH]; intros acc Hacc; [done|].
  unfold squares. rewrite fmap_cons. cbn [fold_left].
  apply IH, fadd_not_negative; [done | apply fmul_self_not_negative].
Qed.

Lemma fold_left_fadd_NaN l : fold_left fadd l NaN = NaN.
Proof. induction l; simpl; auto. Qed.

Lemma np_sum_NaN l : NaN ∈ l → np_sum l = NaN.
Proof.
  unfold np_sum. generalize (Fin 0). induction l as [|y l IH]; intros acc Hx.
  - by apply elem_of_nil in Hx.
  - simpl. apply elem_of_cons in Hx as [<-|Hx].
    + by rewrite fadd_NaN_r, fold_left_fadd_NaN.
    + by apply IH.
Qed.

Lemma fold_left_fadd_replicate_Fin n r a :
  fold_left fadd (replicate n (Fin r)) (Fin a) = Fin (a + INR n * r).
Proof.
  revert a. induction n as [|n IH]; intros a.
  - simpl. f_equal. lra.
  - rewrite S_INR. simpl. rewrite IH. f_equal. lra.
Qed.

Lemma fold_left_fadd_replicate_Inf n s acc :
  acc = Inf s ∨ is_finite acc →
  fold_left fadd (replicate (S n) (Inf s)) acc = Inf s.
Proof.
  revert acc. induction n as [|n IH]; intros acc Hacc.
  - destruct Hacc as [->|Hacc]; simpl.
    + by rewrite Bool.eqb_reflx.
    + by destruct acc.
  - change (replicate (S (S n)) (Inf s)) with (Inf s :: replicate (S n) (Inf s)).
    simpl fold_left at 1. apply IH. left.
    destruct Hacc as [->|Hacc]; simpl.
    + by rewrite Bool.eqb_reflx.
    + by destruct acc.
Qed.

Lemma fold_left_fadd_Fin (rs : list R) (a : R) :
  fold_left fadd (Fin <$> rs) (Fin a) = Fin (fold_left Rplus rs a).
Proof. revert a. induction rs as [|r rs IH]; intros a; simpl; [done|apply IH]. Qed.

Lemma fold_left_fadd_not_above l l' acc acc' :
  Forall2 not_above l l' → not_above acc acc' →
  not_above (fold_left fadd l acc) (fold_left fadd l' acc').
Proof.
  intros Hl. revert acc acc'.
  induction Hl as [|x x' l l' Hx Hl IH]; intros acc acc' Hacc; simpl; [done|].
  by apply IH, fadd_not_above.
Qed.

(** A sum of squares that vanishes has only vanishing terms. *)
Lemma fold_left_squares_zero (ds : list R) (a : R) :
  (0 <= a)%R →
  fold_left Rplus ((λ d, d * d)%R <$> ds) a = 0%R →
  Forall (λ d, d = 0%R) ds.
Proof.
  revert a. induction ds as [|d ds IH]; intros a Ha Hsum; [constructor|].
  rewrite fmap_cons in Hsum. cbn [fold_left] in Hsum.
  pose proof (Rle_0_sqr d) as Hd. unfold Rsqr in Hd.
  assert (∀ l b, (0 <= b)%R →
            (b <= fold_left Rplus ((λ d, d * d)%R <$> l) b)%R) as Hmono.
  { induction l as [|x l IHl]; intros b Hb; [simpl; lra|].
    rewrite fmap_cons. cbn [fold_left].
    pose proof (Rle_0_sqr x) as Hx. unfold Rsqr in Hx.
    etransitivity; [|apply IHl; lra]. lra. }
  pose proof (Hmono ds (a + d * d)%R ltac:(lra)).
  constructor; [|apply (IH (a + d * d)%R); [lra|done]].
  assert (d * d = 0)%R as Hdd by lra.
  by destruct (Rmult_integral _ _ Hdd).
Qed.

Lemma np_sum_replicate_zero n : np_sum (replicate n (Fin 0)) = Fin 0.
Proof.
  unfold np_sum. rewrite fold_left_fadd_replicate_Fin. f_equal. lra.
Qed.

Lemma np_mean_replicate_zero n :
  (0 < n)%nat → np_mean (replicate n (Fin 0)) = Fin 0.
Proof.
  intros Hn. unfold np_mean, of_len.
  rewrite np_sum_replicate_zero, length_replicate.
  rewrite fdiv_Fin by (apply not_0_INR; lia). f_equal. lra.
Qed.

Lemma squares_replicate_zero n :
  squares (replicate n (Fin 0)) = replicate n (Fin 0).
Proof.
  unfold squares. rewrite fmap_replicate. simpl. do 2 f_equal. lra.
Qed.

Lemma fabs_replicate_zero n :
  fabs <$> replicate n (Fin 0) = replicate n (Fin 0).
Proof. rewrite fmap_replicate. simpl. by rewrite Rabs_R0. Qed.

Lemma zip_with_fsub_self (rs : list R) :
  zip_with fsub (Fin <$> rs) (Fin <$> rs) = replicate (length rs) (Fin 0).
Proof.
  induction rs as [|r rs IH]; [done|].
  rewrite fmap_cons. cbn [zip_with length replicate]. rewrite IH.
  f_equal. simpl. f_equal. lra.
Qed.

(** ** The decay vector *)

Lemma decay_exp t : decay t = Fin (exp (-0.1 * IZR t)).
Proof. reflexivity. Qed.

Lemma length_decay_vector T :
  length (temporal_coupling (__init__ T)) = Z.to_nat T.
Proof. simpl. by rewrite length_fmap, length_range. Qed.

Lemma index_decay_vector T (i : nat) :
  (i < Z.to_nat T)%nat →
  index (temporal_coupling (__init__ T)) i = Ok (decay (Z.of_nat i)).
Proof.
  intros Hi. unfold index. simpl.
  by rewrite list_lookup_fmap, lookup_range.
Qed.

Lemma np_getitem_decay_vector T t :
  (0 ≤ t < T)%Z →
  np_getitem (temporal_coupling (__init__ T)) t = Ok (decay t).
Proof.
  intros Ht. rewrite np_getitem_forward by (rewrite length_decay_vector; lia).
  rewrite index_decay_vector by lia. by rewrite Z2Nat.id by lia.
Qed.

(** ** The unified equation, step by step *)

Lemma unified_hyperfunctional_equation_eval self t p f s b a o :
  returns pestel_operator self p →
  returns five_forces_operator self f →
  returns swot_operator self s →
  returns bcg_operator self b →
  returns ansoff_operator self a →
  returns blue_ocean_operator self o →
  unified_hyperfunctional_equation t self =
    ((λ d, strategic_state (coupling_matrices self) p f s b a o * d)%f64
       <$> np_getitem (temporal_coupling self) t, self).
Proof.
  intros Hp Hf Hs Hb Ha Ho. unfold unified_hyperfunctional_equation.
  rewrite (bind_Ok _ _ _ _ _ (returns_readonly _ _ _ readonly_pestel_operator Hp)).
  rewrite (bind_Ok _ _ _ _ _ (returns_readonly _ _ _ readonly_five_forces_operator Hf)).
  rewrite (bind_Ok _ _ _ _ _ (returns_readonly _ _ _ readonly_swot_operator Hs)).
  rewrite (bind_Ok _ _ _ _ _ (returns_readonly _ _ _ readonly_bcg_operator Hb)).
  rewrite (bind_Ok _ _ _ _ _ (returns_readonly _ _ _ readonly_ansoff_operator Ha)).
  rewrite (bind_Ok _ _ _ _ _ (returns_readonly _ _ _ readonly_blue_ocean_operator Ho)).
  unfold mbind, M_bind, gets, lift, mret, M_ret. simpl.
  by destruct (np_getitem (temporal_coupling self) t).
Qed.

(** ** The operators on stored data *)

Lemma getitem_Some self key d :
  framework_data self !! key = Some d → getitem key self = (Ok d, self).
Proof. intros H. unfold getitem, gets, mbind, M_bind. by rewrite H. Qed.

Lemma getitem_None self key :
  framework_data self !! key = None → getitem key self = (Raise KeyError, self).
Proof. intros H. unfold getitem, gets, mbind, M_bind. by rewrite H. Qed.

Lemma pestel_operator_stored self factors weights probabilities impacts :
  framework_data self !! "pestel"
    = Some (PestelData factors weights probabilities impacts) →
  pestel_operator self =
    (np_sum <$> mapM (pestel_term weights probabilities impacts)
                     (seq 0 (length factors)), self).
Proof.
  intros H. unfold pestel_operator. rewrite (bind_Ok _ _ _ _ _ (getitem_Some _ _ _ H)).
  unfold lift. by destruct (mapM _ _).
Qed.

Lemma five_forces_operator_stored self forces W :
  framework_data self !! "five_forces" = Some (FiveForcesData forces W) →
  five_forces_operator self =
    ((λ rows, Fin 1 - np_sum rows / of_len forces)%f64
       <$> mapM (five_forces_row forces W) (seq 0 (length forces)), self).
Proof.
  intros H. unfold five_forces_operator.
  rewrite (bind_Ok _ _ _ _ _ (getitem_Some _ _ _ H)).
  unfold lift. by destruct (mapM _ _).
Qed.

Lemma swot_operator_stored self internal external tensor :
  framework_data self !! "swot" = Some (SwotData internal external tensor) →
  swot_operator self =
    (Ok (np_sum (concat tensor)
         / Fin (INR (length internal * length external)))%f64, self).
Proof.
  intros H. unfold swot_operator.
  by rewrite (bind_Ok _ _ _ _ _ (getitem_Some _ _ _ H)).
Qed.

Lemma bcg_operator_stored self market_share growth_rate :
  framework_data self !! "bcg" = Some (BcgData market_share growth_rate) →
  bcg_operator self =
    (np_mean <$> broadcast fmul market_share growth_rate, self).
Proof.
  intros H. unfold bcg_operator.
  by rewrite (bind_Ok _ _ _ _ _ (getitem_Some _ _ _ H)).
Qed.

Lemma ansoff_operator_stored self success risk :
  framework_data self !! "ansoff" = Some (AnsoffData success risk) →
  ansoff_operator self = (np_mean <$> broadcast fsub success risk, self).
Proof.
  intros H. unfold ansoff_operator.
  by rewrite (bind_Ok _ _ _ _ _ (getitem_Some _ _ _ H)).
Qed.

Lemma blue_ocean_operator_stored self differentiation cost :
  framework_data self !! "blue_ocean"
    = Some (BlueOceanData differentiation cost) →
  blue_ocean_operator self =
    (np_mean <$> broadcast fdiv differentiation cost, self).
Proof.
  intros H. unfold blue_ocean_operator.
  by rewrite (bind_Ok _ _ _ _ _ (getitem_Some _ _ _ H)).
Qed.

(** ** The scenario, evaluated *)

Ltac f64_eval :=
  cbn -[fdiv]; unfold np_mean, of_len; cbn -[fdiv];
  rewrite ?fdiv_Fin by (cbn; lra); cbn -[fdiv];
  rewrite ?fdiv_Fin by (cbn; lra).

Ltac f64_eq := repeat f_equal; cbn; lra.

Lemma scenario_pestel T : returns pestel_operator (scenario_at T) (Fin 7).
Proof.
  unfold returns. erewrite pestel_operator_stored by reflexivity.
  f64_eval. f64_eq.
Qed.

Lemma scenario_five_forces T : returns five_forces_operator (scenario_at T) (Fin 0.75).
Proof.
  unfold returns. erewrite five_forces_operator_stored by reflexivity.
  f64_eval. f64_eq.
Qed.

Lemma scenario_swot T : returns swot_operator (scenario_at T) (Fin 2).
Proof.
  unfold returns. erewrite swot_operator_stored by reflexivity.
  f64_eval. f64_eq.
Qed.

Lemma scenario_bcg T : returns bcg_operator (scenario_at T) (Fin 0.1).
Proof.
  unfold returns. erewrite bcg_operator_stored by reflexivity.
  f64_eval. f64_eq.
Qed.

Lemma scenario_ansoff T : returns ansoff_operator (scenario_at T) (Fin 0.6).
Proof.
  unfold returns. erewrite ansoff_operator_stored by reflexivity.
  f64_eval. f64_eq.
Qed.

Lemma scenario_blue_ocean T : returns blue_ocean_operator (scenario_at T) (Fin 2).
Proof.
  unfold returns. erewrite blue_ocean_operator_stored by reflexivity.
  f64_eval. f64_eq.
Qed.

Lemma scenario_constructed T : constructed (scenario_at T).
Proof. reflexivity. Qed.

Lemma scenario_strategic_state T :
  strategic_state (coupling_matrices (scenario_at T))
    (Fin 7) (Fin 0.75) (Fin 2) (Fin 0.1) (Fin 0.6) (Fin 2) = Fin 14.913.
Proof.
  unfold strategic_state, coupling_effect, coupling.
  change (coupling_matrices (scenario_at ?[T]))
    with (∅ : gmap (string * string) float64).
  rewrite !lookup_empty. cbn. f64_eq.
Qed.

(** ** The unified equation *)

(** C1.  On an object that holds the six input sets, with operator
    outputs [p], [f], [s], [b], [a], [o], and for a time step
    [0 <= t < T], the unified equation returns
    [(p + f + s + b + a + o + c(p,f)·p·f + c(f,s)·f·s + c(s,b)·s·b
      + c(b,a)·b·a + c(a,o)·a·o) · exp(-0.1·t)],
    each coefficient [c] being the one stored for the pair, or 0.3 when
    the pair is absent; it leaves the object as it was.  On the scenario
    of the end-to-end test, with time horizon 3, the value at [t = 0] is
    14.913. *)
Theorem unified_equation_formula :
  (∀ (self : ISAF) (t : Z) (p f s b a o : float64),
     constructed self →
     returns pestel_operator self p →
     returns five_forces_operator self f →
     returns swot_operator self s →
     returns bcg_operator self b →
     returns ansoff_operator self a →
     returns blue_ocean_operator self o →
     (0 ≤ t < time_horizon self)%Z →
     let c x y := default (Fin 0.3) (coupling_matrices self !! (x, y)) in
     unified_hyperfunctional_equation t self =
       (Ok ((p + f + s + b + a + o
             + (c "pestel" "five_forces" * p * f
                + c "five_forces" "swot" * f * s
                + c "swot" "bcg" * s * b
                + c "bcg" "ansoff" * b * a
                + c "ansoff" "blue_ocean" * a * o))
            * Fin (exp (-0.1 * IZR t)))%f64, self))
  ∧ unified_hyperfunctional_equation 0 scenario = (Ok (Fin 14.913), scenario).
Proof.
  split.
  - intros self t p f s b a o Hc Hp Hf Hs Hb Ha Ho Ht c.
    rewrite (unified_hyperfunctional_equation_eval _ _ _ _ _ _ _ _ Hp Hf Hs Hb Ha Ho).
    rewrite Hc, np_getitem_decay_vector by done. by rewrite decay_exp.
  - rewrite (unified_hyperfunctional_equation_eval _ _ _ _ _ _ _ _
               (scenario_pestel 3) (scenario_five_forces 3) (scenario_swot 3)
               (scenario_bcg 3) (scenario_ansoff 3) (scenario_blue_ocean 3)).
    rewrite (scenario_constructed 3), np_getitem_decay_vector by done.
    rewrite (scenario_strategic_state 3), decay_exp, Rmult_0_r, exp_0.
    cbn. do 3 f_equal. lra.
Qed.

Lemma unified_equation_formula_witness :
  unified_hyperfunctional_equation 1 scenario =
    (Ok ((Fin 7 + Fin 0.75 + Fin 2 + Fin 0.1 + Fin 0.6 + Fin 2
         + (Fin 0.3 * Fin 7 * Fin 0.75 + Fin 0.3 * Fin 0.75 * Fin 2
            + Fin 0.3 * Fin 2 * Fin 0.1 + Fin 0.3 * Fin 0.1 * Fin 0.6
            + Fin 0.3 * Fin 0.6 * Fin 2))
        * Fin (exp (-0.1 * 1)))%f64, scenario).
Proof.
  apply (proj1 unified_equation_formula scenario 1%Z);
    [ exact (scenario_constructed 3) | exact (scenario_pestel 3)
    | exact (scenario_five_forces 3) | exact (scenario_swot 3)
    | exact (scenario_bcg 3) | exact (scenario_ansoff 3)
    | exact (scenario_blue_ocean 3) | done ].
Defined.

(** C10.  On an object that holds the six input sets, the time step
    enters the unified equation only through the decay factor: for time
    steps [t] and [t'] in [[0, T)], the values at [t] and [t'] are the
    value at 0 multiplied by [exp(-0.1·t)] and by [exp(-0.1·t')], and
    when [t'] follows [t] the value at [t'] is the value at [t]
    multiplied by [exp(-0.1)]. *)
Theorem unified_equation_time_dependence
    (self : ISAF) (t t' : Z) (p f s b a o : float64) :
  constructed self →
  returns pestel_operator self p →
  returns five_forces_operator self f →
  returns swot_operator self s →
  returns bcg_operator self b →
  returns ansoff_operator self a →
  returns blue_ocean_operator self o →
  (0 ≤ t < time_horizon self)%Z →
  (0 ≤ t' < time_horizon self)%Z →
  ∃ v0 vt vt',
    unified_hyperfunctional_equation 0 self = (Ok v0, self) ∧
    unified_hyperfunctional_equation t self = (Ok vt, self) ∧
    unified_hyperfunctional_equation t' self = (Ok vt', self) ∧
    vt = (v0 * Fin (exp (-0.1 * IZR t)))%f64 ∧
    vt' = (v0 * Fin (exp (-0.1 * IZR t')))%f64 ∧
    (t' = (t + 1)%Z → vt' = (vt * Fin (exp (-0.1)))%f64).
Proof.
  intros Hc Hp Hf Hs Hb Ha Ho Ht Ht'.
  pose proof (unified_hyperfunctional_equation_eval self) as Heval.
  specialize (Heval) with (1 := Hp) (2 := Hf) (3 := Hs) (4 := Hb) (5 := Ha) (6 := Ho).
  set (state := strategic_state (coupling_matrices self) p f s b a o) in *.
  assert (∀ u, (0 ≤ u < time_horizon self)%Z →
    unified_hyperfunctional_equation u self
      = (Ok (state * Fin (exp (-0.1 * IZR u)))%f64, self)) as Hu.
  { intros u Hu. rewrite Heval, Hc, np_getitem_decay_vector by done.
    by rewrite decay_exp. }
  exists state, (state * Fin (exp (-0.1 * IZR t)))%f64,
    (state * Fin (exp (-0.1 * IZR t')))%f64.
  split; [|split; [|split; [|split; [|split]]]]; auto.
  - rewrite Hu by lia. by rewrite Rmult_0_r, exp_0, fmul_1_r.
  - intros ->. rewrite fmul_Fin_pos_assoc by apply exp_pos.
    rewrite <- exp_plus, plus_IZR. do 3 f_equal. lra.
Qed.

Lemma unified_equation_time_dependence_witness :
  ∃ v0 vt vt',
    unified_hyperfunctional_equation 0 scenario = (Ok v0, scenario) ∧
    unified_hyperfunctional_equation 1 scenario = (Ok vt, scenario) ∧
    unified_hyperfunctional_equation 2 scenario = (Ok vt', scenario) ∧
    vt = (v0 * Fin (exp (-0.1 * 1)))%f64 ∧
    vt' = (v0 * Fin (exp (-0.1 * 2)))%f64 ∧
    (2 = 1 + 1 → vt' = (vt * Fin (exp (-0.1)))%f64)%Z.
Proof.
  apply (unified_equation_time_dependence scenario 1 2
           (Fin 7) (Fin 0.75) (Fin 2) (Fin 0.1) (Fin 0.6) (Fin 2));
    [ exact (scenario_constructed 3) | exact (scenario_pestel 3)
    | exact (scenario_five_forces 3) | exact (scenario_swot 3)
    | exact (scenario_bcg 3) | exact (scenario_ansoff 3)
    | exact (scenario_blue_ocean 3) | done | done ].
Defined.

(** C2, as stated, fails: on the scenario (time horizon 3) the time step
    [-1] lies outside [[0, 3)], yet the unified equation raises nothing
    and returns the strategic state scaled by the last decay factor,
    [14.913 · exp(-0.2)]. *)
Lemma unified_equation_negative_index_returns :
  ¬ (0 ≤ -1 < time_horizon scenario)%Z ∧
  unified_hyperfunctional_equation (-1) scenario
    = (Ok (Fin (14.913 * exp (-0.1 * 2))), scenario) ∧
  ¬ raises (unified_hyperfunctional_equation (-1)) scenario IndexError.
Proof.
  assert (unified_hyperfunctional_equation (-1) scenario
            = (Ok (Fin (14.913 * exp (-0.1 * 2))), scenario)) as H.
  { rewrite (unified_hyperfunctional_equation_eval _ _ _ _ _ _ _ _
               (scenario_pestel 3) (scenario_five_forces 3) (scenario_swot 3)
               (scenario_bcg 3) (scenario_ansoff 3) (scenario_blue_ocean 3)).
    by rewrite (scenario_strategic_state 3). }
  split; [simpl; lia|]. split; [done|].
  unfold raises. by rewrite H.
Qed.

(** C2, amended.  On an object that holds the six input sets, the
    unified equation raises [IndexError], leaving the object as it was,
    for every time step [t >= T] and every [t < -T]; for a negative
    [t >= -T] the index counts from the end of the decay vector and the
    call returns the strategic state multiplied by
    [exp(-0.1·(T + t))]. *)
Theorem unified_equation_index_error
    (self : ISAF) (t : Z) (p f s b a o : float64) :
  constructed self →
  returns pestel_operator self p →
  returns five_forces_operator self f →
  returns swot_operator self s →
  returns bcg_operator self b →
  returns ansoff_operator self a →
  returns blue_ocean_operator self o →
  ((t < - time_horizon self ∨ time_horizon self ≤ t)%Z →
     unified_hyperfunctional_equation t self = (Raise IndexError, self)) ∧
  ((- time_horizon self ≤ t < 0)%Z →
     unified_hyperfunctional_equation t self =
       (Ok (strategic_state (coupling_matrices self) p f s b a o
            * Fin (exp (-0.1 * IZR (time_horizon self + t))))%f64, self)).
Proof.
  intros Hc Hp Hf Hs Hb Ha Ho.
  rewrite (unified_hyperfunctional_equation_eval _ _ _ _ _ _ _ _ Hp Hf Hs Hb Ha Ho).
  rewrite Hc. split; intros Ht.
  - rewrite np_getitem_outside; [done|]. rewrite length_decay_vector. lia.
  - rewrite np_getitem_backward by (rewrite length_decay_vector; lia).
    rewrite length_decay_vector, index_decay_vector by lia.
    rewrite !Z2Nat.id by lia. by rewrite decay_exp.
Qed.

Lemma unified_equation_index_error_witness :
  unified_hyperfunctional_equation 3 scenario = (Raise IndexError, scenario) ∧
  unified_hyperfunctional_equation (-4) scenario = (Raise IndexError, scenario) ∧
  unified_hyperfunctional_equation (-3) scenario =
    (Ok (strategic_state (coupling_matrices scenario)
           (Fin 7) (Fin 0.75) (Fin 2) (Fin 0.1) (Fin 0.6) (Fin 2)
         * Fin (exp (-0.1 * IZR (3 + -3))))%f64, scenario).
Proof.
  split; [|split].
  - apply (unified_equation_index_error scenario 3
             (Fin 7) (Fin 0.75) (Fin 2) (Fin 0.1) (Fin 0.6) (Fin 2));
      [ exact (scenario_constructed 3) | exact (scenario_pestel 3)
      | exact (scenario_five_forces 3) | exact (scenario_swot 3)
      | exact (scenario_bcg 3) | exact (scenario_ansoff 3)
      | exact (scenario_blue_ocean 3) | simpl; lia ].
  - apply (unified_equation_index_error scenario (-4)
             (Fin 7) (Fin 0.75) (Fin 2) (Fin 0.1) (Fin 0.6) (Fin 2));
      [ exact (scenario_constructed 3) | exact (scenario_pestel 3)
      | exact (scenario_five_forces 3) | exact (scenario_swot 3)
      | exact (scenario_bcg 3) | exact (scenario_ansoff 3)
      | exact (scenario_blue_ocean 3) | simpl; lia ].
  - apply (unified_equation_index_error scenario (-3)
             (Fin 7) (Fin 0.75) (Fin 2) (Fin 0.1) (Fin 0.6) (Fin 2));
      [ exact (scenario_constructed 3) | exact (scenario_pestel 3)
      | exact (scenario_five_forces 3) | exact (scenario_swot 3)
      | exact (scenario_bcg 3) | exact (scenario_ansoff 3)
      | exact (scenario_blue_ocean 3) | simpl; lia ].
Defined.

(** ** Division by zero in the operators *)

(** C3, as stated, fails: with no SWOT factors at all the SWOT operator
    returns NaN, and with a zero cost entry the Blue Ocean operator
    returns plus infinity; neither raises. *)
Lemma division_by_zero_returns :
  swot_operator swot_empty = (Ok NaN, swot_empty) ∧
  blue_ocean_operator blue_ocean_zero_cost
    = (Ok (Inf false), blue_ocean_zero_cost) ∧
  ¬ raises swot_operator swot_empty ZeroDivisionError ∧
  ¬ raises blue_ocean_operator blue_ocean_zero_cost ZeroDivisionError.
Proof.
  assert (swot_operator swot_empty = (Ok NaN, swot_empty)) as Hs.
  { erewrite swot_operator_stored by reflexivity. cbn.
    destruct (Req_dec_T 0 0); [|lra]. done. }
  assert (blue_ocean_operator blue_ocean_zero_cost
            = (Ok (Inf false), blue_ocean_zero_cost)) as Hb.
  { erewrite blue_ocean_operator_stored by reflexivity. cbn.
    destruct (Req_dec_T 0 0); [|lra].
    destruct (Req_dec_T 0.8 0); [lra|].
    rewrite Rneg_nonneg by lra. cbn. by rewrite Rneg_nonneg by lra. }
  unfold raises. rewrite Hs, Hb. done.
Qed.

(** C3, amended.  With both SWOT factor lists empty the SWOT operator
    raises nothing: it returns a value that is not finite (NaN or an
    infinity).  With two Blue Ocean vectors of the same length and a
    zero among the costs, the Blue Ocean operator raises nothing: it
    returns a value that is not finite.  Both leave the object as it
    was. *)
Theorem division_by_zero_not_finite :
  (∀ (self : ISAF) (tensor : list (list float64)),
     framework_data self !! "swot" = Some (SwotData [] [] tensor) →
     ∃ v, swot_operator self = (Ok v, self) ∧ ¬ is_finite v) ∧
  (∀ (self : ISAF) (differentiation cost : list float64),
     framework_data self !! "blue_ocean"
       = Some (BlueOceanData differentiation cost) →
     length differentiation = length cost →
     Fin 0 ∈ cost →
     ∃ v, blue_ocean_operator self = (Ok v, self) ∧ ¬ is_finite v).
Proof.
  split.
  - intros self tensor H. eexists. split.
    + by apply swot_operator_stored.
    + simpl. apply fdiv_zero_not_finite.
  - intros self d c H Hlen Hzero. eexists. split.
    + erewrite blue_ocean_operator_stored by done.
      by rewrite broadcast_same_length.
    + apply list_elem_of_lookup in Hzero as [i Hi].
      destruct (lookup_lt_is_Some_2 d i) as [x Hx].
      { rewrite Hlen. by eapply lookup_lt_Some. }
      apply np_mean_not_finite with (x := (x / Fin 0)%f64).
      * apply list_elem_of_lookup. exists i.
        by rewrite lookup_zip_with, Hx, Hi.
      * apply fdiv_zero_not_finite.
Qed.

Lemma division_by_zero_not_finite_witness :
  (∃ v, swot_operator swot_empty = (Ok v, swot_empty) ∧ ¬ is_finite v) ∧
  (∃ v, blue_ocean_operator blue_ocean_zero_cost
          = (Ok v, blue_ocean_zero_cost) ∧ ¬ is_finite v).
Proof.
  split.
  - apply (proj1 division_by_zero_not_finite swot_empty []). reflexivity.
  - apply (proj2 division_by_zero_not_finite blue_ocean_zero_cost
             [Fin 0.8] [Fin 0]).
    + reflexivity.
    + reflexivity.
    + apply list_elem_of_here.
Defined.

(** ** The predicted sequence and the validator *)

Lemma predicted_outcomes_eval self p f s b a o :
  constructed self →
  returns pestel_operator self p →
  returns five_forces_operator self f →
  returns swot_operator self s →
  returns bcg_operator self b →
  returns ansoff_operator self a →
  returns blue_ocean_operator self o →
  mapM unified_hyperfunctional_equation (range (time_horizon self)) self =
    (Ok ((λ t, strategic_state (coupling_matrices self) p f s b a o * decay t)%f64
           <$> range (time_horizon self)), self).
Proof.
  intros Hc Hp Hf Hs Hb Ha Ho. apply mapM_Ok. intros t Ht%elem_of_range.
  rewrite (unified_hyperfunctional_equation_eval _ _ _ _ _ _ _ _ Hp Hf Hs Hb Ha Ho).
  by rewrite Hc, np_getitem_decay_vector.
Qed.

Lemma validate_model_eval self actual predicted :
  mapM unified_hyperfunctional_equation (range (time_horizon self)) self
    = (Ok predicted, self) →
  validate_model actual self =
    ((λ residuals,
        {| RMSE := fsqrt (np_mean (squares residuals));
           MAE := np_mean (fabs <$> residuals);
           R_squared :=
             (Fin 1 - np_sum (squares residuals)
                      / np_sum (squares ((λ a, a - np_mean actual)%f64
                                           <$> actual)))%f64 |})
       <$> broadcast fsub actual predicted, self).
Proof.
  intros Hpred. unfold validate_model, gets, lift, mbind at 1, M_bind at 1.
  rewrite (bind_Ok _ _ _ _ _ Hpred). unfold mbind, M_bind.
  by destruct (broadcast fsub actual predicted).
Qed.

(** ** A constant sequence of outcomes *)

(** In the arithmetic of the embedding [n] copies of a finite value have
    no variance.  (In [float64] that needs the mean of the copies to be
    computed exactly, as it is for [1, 1, 1] and for a single entry; the
    lemma is used at such sequences only.) *)
Lemma constant_total_variance_Fin n r :
  total_variance (replicate n (Fin r)) = Fin 0.
Proof.
  unfold total_variance. destruct n as [|n]; [done|].
  unfold squares. rewrite !fmap_replicate.
  unfold np_mean, np_sum, of_len.
  rewrite length_replicate, fold_left_fadd_replicate_Fin.
  rewrite fdiv_Fin by (rewrite S_INR; pose proof (pos_INR n); lra).
  cbn [fsub fopp fadd fmul]. rewrite fold_left_fadd_replicate_Fin.
  f_equal. pose proof (pos_INR n). rewrite S_INR in *. field. lra.
Qed.

(** C4, as stated, fails: on the scenario with the outcomes
    [1, 1, 1] the validator raises nothing; it returns the three
    metrics, with R² equal to minus infinity. *)
Lemma validate_model_constant_outcomes_returns :
  (∃ rmse mae,
     validate_model [Fin 1; Fin 1; Fin 1] scenario
       = (Ok {| RMSE := rmse; MAE := mae; R_squared := Inf true |}, scenario)) ∧
  ¬ raises (validate_model [Fin 1; Fin 1; Fin 1]) scenario ZeroDivisionError.
Proof.
  assert (∃ rmse mae,
     validate_model [Fin 1; Fin 1; Fin 1] scenario
       = (Ok {| RMSE := rmse; MAE := mae; R_squared := Inf true |}, scenario))
    as (rmse & mae & H).
  { eexists _, _.
    rewrite (validate_model_eval _ _ _
               (predicted_outcomes_eval _ _ _ _ _ _ _
                  (scenario_constructed 3) (scenario_pestel 3)
                  (scenario_five_forces 3) (scenario_swot 3) (scenario_bcg 3)
                  (scenario_ansoff 3) (scenario_blue_ocean 3))).
    rewrite (scenario_strategic_state 3).
    pose proof (constant_total_variance_Fin 3 1) as Hvar.
    unfold total_variance in Hvar. cbn [replicate] in Hvar. rewrite Hvar.
    change (range (time_horizon (scenario_at 3))) with [0; 1; 2]%Z.
    cbn -[fdiv fsqrt]. rewrite Rmult_0_r, exp_0.
    rewrite fdiv_pos_zero; [reflexivity|].
    set (x := (1 + - (14.913 * exp (-0.1 * 1)))%R).
    set (y := (1 + - (14.913 * exp (-0.1 * 2)))%R).
    pose proof (Rle_0_sqr x). pose proof (Rle_0_sqr y).
    unfold Rsqr in *. lra. }
  split; [by exists rmse, mae|].
  unfold raises. by rewrite H.
Qed.

(** C4, amended.  On an object that holds the six input sets, for
    observed outcomes of length [T] whose total variance
    [Σ(actual - mean(actual))²], as the program computes it, is zero,
    the validator raises nothing: it returns the three metrics, the R²
    among them being NaN or minus infinity, and leaves the object as it
    was.  (The hypothesis is on the computed sum and not on the entries
    being identical: in [float64] the mean of identical entries can
    differ from them in the last bit, as for [0.1, 0.1, 0.1], and the
    sum then comes out positive.) *)
Theorem validate_model_constant_outcomes
    (self : ISAF) (p f s b a o : float64) (actual_outcomes : list float64) :
  constructed self →
  returns pestel_operator self p →
  returns five_forces_operator self f →
  returns swot_operator self s →
  returns bcg_operator self b →
  returns ansoff_operator self a →
  returns blue_ocean_operator self o →
  length actual_outcomes = Z.to_nat (time_horizon self) →
  total_variance actual_outcomes = Fin 0 →
  ∃ m, validate_model actual_outcomes self = (Ok m, self) ∧
       (R_squared m = NaN ∨ R_squared m = Inf true).
Proof.
  intros Hc Hp Hf Hs Hb Ha Ho Hlen Hzero.
  rewrite (validate_model_eval _ _ _
             (predicted_outcomes_eval _ _ _ _ _ _ _ Hc Hp Hf Hs Hb Ha Ho)).
  rewrite broadcast_same_length
    by (by rewrite length_fmap, length_range).
  eexists. split; [done|]. cbn [R_squared].
  fold (total_variance actual_outcomes). rewrite Hzero.
  apply one_minus_fdiv_zero, np_sum_squares_not_negative.
Qed.

Lemma validate_model_constant_outcomes_witness :
  ∃ m, validate_model [Fin 1; Fin 1; Fin 1] scenario = (Ok m, scenario) ∧
       (R_squared m = NaN ∨ R_squared m = Inf true).
Proof.
  apply (validate_model_constant_outcomes scenario
           (Fin 7) (Fin 0.75) (Fin 2) (Fin 0.1) (Fin 0.6) (Fin 2));
    [ exact (scenario_constructed 3) | exact (scenario_pestel 3)
    | exact (scenario_five_forces 3) | exact (scenario_swot 3)
    | exact (scenario_bcg 3) | exact (scenario_ansoff 3)
    | exact (scenario_blue_ocean 3) | reflexivity
    | exact (constant_total_variance_Fin 3 1) ].
Defined.

(** ** The validator on the model's own predictions *)

Lemma total_variance_Fin (rs : list R) :
  rs ≠ [] →
  total_variance (Fin <$> rs) =
    Fin (fold_left Rplus
           ((λ d, d * d)%R
              <$> ((λ r, r + - (fold_left Rplus rs 0 / INR (length rs)))%R
                     <$> rs)) 0%R).
Proof.
  intros Hrs. unfold total_variance, np_mean, np_sum at 2, of_len.
  rewrite fold_left_fadd_Fin, length_fmap.
  rewrite fdiv_Fin
    by (apply not_0_INR; destruct rs; [done | simpl; lia]).
  unfold squares, np_sum. rewrite <- !list_fmap_compose.
  rewrite <- fold_left_fadd_Fin. f_equal.
  rewrite <- list_fmap_compose. by apply list_fmap_ext.
Qed.

(** In the arithmetic of the embedding the predictions of an object
    with a finite, non-zero strategic state over at least two time steps
    are not all equal.  (In [float64] the squared deviations of a very
    small state can underflow to zero; the lemma is used at the scenario
    only.) *)
Lemma predicted_total_variance (state : R) (T : Z) :
  state ≠ 0%R → (2 ≤ T)%Z →
  ∃ v, v ≠ 0%R ∧
    total_variance ((λ t, Fin state * decay t)%f64 <$> range T) = Fin v.
Proof.
  intros Hstate HT.
  set (rs := (λ t, state * exp (-0.1 * IZR t))%R <$> range T).
  assert ((λ t, Fin state * decay t)%f64 <$> range T = Fin <$> rs) as ->.
  { unfold rs. rewrite <- list_fmap_compose. by apply list_fmap_ext. }
  destruct (range_ge_2 T HT) as [rest Hrange].
  assert (rs ≠ []) as Hrs by (unfold rs; by rewrite Hrange).
  rewrite total_variance_Fin by done.
  eexists. split; [|done]. intros Hzero.
  apply fold_left_squares_zero in Hzero; [|lra].
  set (m := (fold_left Rplus rs 0 / INR (length rs))%R) in Hzero.
  clearbody m. unfold rs in Hzero. rewrite Hrange, !fmap_cons in Hzero.
  apply Forall_cons in Hzero as [H0 Hzero].
  apply Forall_cons in Hzero as [H1 _].
  assert (exp (-0.1 * 1) < exp (-0.1 * 0))%R by (apply exp_increasing; lra).
  nra.
Qed.

Lemma validate_model_own_predictions self (rs : list R) :
  rs ≠ [] →
  mapM unified_hyperfunctional_equation (range (time_horizon self)) self
    = (Ok (Fin <$> rs), self) →
  validate_model (Fin <$> rs) self =
    (Ok {| RMSE := Fin 0; MAE := Fin 0;
           R_squared := (Fin 1 - Fin 0 / total_variance (Fin <$> rs))%f64 |},
     self).
Proof.
  intros Hrs Hpred. rewrite (validate_model_eval _ _ _ Hpred).
  rewrite broadcast_same_length by done.
  rewrite zip_with_fsub_self. cbn [fmap result_fmap].
  rewrite squares_replicate_zero, fabs_replicate_zero.
  rewrite np_mean_replicate_zero, np_sum_replicate_zero, fsqrt_zero
    by (destruct rs; [done | simpl; lia]).
  done.
Qed.

Lemma fold_left_fadd_Inf l s :
  fold_left fadd l (Inf s) = Inf s ∨ fold_left fadd l (Inf s) = NaN.
Proof.
  induction l as [|x l IH]; [by left|]. cbn [fold_left].
  destruct x as [r|s'|]; cbn [fadd]; [done| |right; apply fold_left_fadd_NaN].
  destruct (Bool.eqb s s'); [done|]. right. apply fold_left_fadd_NaN.
Qed.

(** A sum that comes out as an infinity has met infinities of that sign
    only, and no NaN. *)
Lemma fold_left_fadd_sign l : ∀ acc x s,
  x ∈ l → ¬ is_finite x → fold_left fadd l acc = Inf s → x = Inf s.
Proof.
  induction l as [|y l IH]; intros acc x s Hx Hnf Hsum.
  - by apply elem_of_nil in Hx.
  - cbn [fold_left] in Hsum.
    apply elem_of_cons in Hx as [->|Hx]; [|by eapply IH].
    destruct y as [r|s'|]; [by destruct Hnf| |].
    + assert (fadd acc (Inf s') = Inf s' ∨ fadd acc (Inf s') = NaN) as [Heq|Heq].
      { destruct acc as [r|s''|]; cbn [fadd]; [by left| |by right].
        destruct (Bool.eqb_spec s'' s') as [->|]; [by left|by right]. }
      * rewrite Heq in Hsum.
        destruct (fold_left_fadd_Inf l s') as [H|H]; rewrite H in Hsum;
          congruence.
      * by rewrite Heq, fold_left_fadd_NaN in Hsum.
    + assert (fadd acc NaN = NaN) as Heq by by destruct acc.
      by rewrite Heq, fold_left_fadd_NaN in Hsum.
Qed.

(** A total variance that is not NaN comes from finite entries: with an
    infinity or a NaN among them the mean is not finite, and the
    deviation of that entry from it is NaN. *)
Lemma total_variance_finite_entries (l : list float64) :
  ¬ is_nan (total_variance l) → ∃ rs, l = Fin <$> rs.
Proof.
  intros Hvar.
  assert (∀ x, x ∈ l → ¬ is_finite x → total_variance l = NaN) as Hnan.
  { intros x Hx Hnf. unfold total_variance.
    apply np_sum_NaN. unfold squares.
    apply list_elem_of_fmap. exists (x - np_mean l)%f64.
    split; [|apply list_elem_of_fmap; by exists x].
    assert ((x - np_mean l)%f64 = NaN) as ->; [|done].
    destruct x as [r|s|]; [by destruct Hnf| |done].
    unfold np_mean, of_len. destruct (np_sum l) as [r|s'|] eqn:Hsum.
    - destruct (np_sum_not_finite l (Inf s) Hx Hnf). by rewrite Hsum.
    - pose proof (fold_left_fadd_sign l (Fin 0) (Inf s) s' Hx Hnf Hsum)
        as [= ->].
      cbn [fdiv]. rewrite Rneg_nonneg by apply pos_INR.
      destruct s'; reflexivity.
    - reflexivity. }
  assert (Forall is_finite l) as Hfin.
  { apply Forall_forall. intros x Hx.
    destruct x as [r|s|]; [done|exfalso..]; apply Hvar;
      rewrite (Hnan _ Hx) by (simpl; tauto); exact I. }
  clear Hvar Hnan. induction Hfin as [|x l Hx _ IH]; [by exists []|].
  destruct IH as [rs ->]. destruct x as [r| |]; try done.
  by exists (r :: rs).
Qed.

(** C8, as stated, fails: with a time horizon of one step the scenario
    predicts the single value 14.913; fed back as the observed outcomes
    it gives RMSE = 0 and MAE = 0, but R² is [1 - 0/0] = NaN, not 1. *)
Lemma validator_round_trip_single_step :
  mapM unified_hyperfunctional_equation
       (range (time_horizon (scenario_at 1))) (scenario_at 1)
    = (Ok [Fin 14.913], scenario_at 1) ∧
  validate_model [Fin 14.913] (scenario_at 1)
    = (Ok {| RMSE := Fin 0; MAE := Fin 0; R_squared := NaN |}, scenario_at 1).
Proof.
  assert (mapM unified_hyperfunctional_equation
            (range (time_horizon (scenario_at 1))) (scenario_at 1)
          = (Ok [Fin 14.913], scenario_at 1)) as Hpred.
  { rewrite (predicted_outcomes_eval _ _ _ _ _ _ _
               (scenario_constructed 1) (scenario_pestel 1)
               (scenario_five_forces 1) (scenario_swot 1) (scenario_bcg 1)
               (scenario_ansoff 1) (scenario_blue_ocean 1)).
    rewrite (scenario_strategic_state 1).
    change (range (time_horizon (scenario_at 1))) with [0%Z]. cbn.
    rewrite Rmult_0_r, exp_0. do 4 f_equal. lra. }
  split; [done|].
  change [Fin 14.913] with (Fin <$> [14.913%R]).
  rewrite validate_model_own_predictions by done.
  change (Fin <$> [14.913%R]) with (replicate 1 (Fin 14.913)).
  rewrite constant_total_variance_Fin. do 3 f_equal. unfold fdiv.
  destruct (Req_dec_T 0 0); [|lra]. done.
Qed.

(** C8, amended.  On an object on which the predicted sequence
    [unified_equation(0), ..., unified_equation(T-1)] is computed, when
    the total variance [Σ(predicted - mean(predicted))²] of that
    sequence, as the program computes it, is neither zero nor NaN, the
    validator applied to the predicted sequence returns RMSE = 0,
    MAE = 0 and R² = 1.  (When that sum is zero, as it is with a single
    time step, with a zero strategic state, or in [float64] with
    deviations whose squares underflow, R² is [1 - 0/0], NaN.) *)
Theorem validator_round_trip (self : ISAF) (predicted : list float64) :
  mapM unified_hyperfunctional_equation (range (time_horizon self)) self
    = (Ok predicted, self) →
  total_variance predicted ≠ Fin 0 →
  ¬ is_nan (total_variance predicted) →
  validate_model predicted self
    = (Ok {| RMSE := Fin 0; MAE := Fin 0; R_squared := Fin 1 |}, self).
Proof.
  intros Hpred Hnz Hnan.
  destruct (total_variance_finite_entries predicted Hnan) as [rs ->].
  assert (rs ≠ []) as Hrs by (intros ->; by destruct Hnz).
  rewrite validate_model_own_predictions by done.
  rewrite (total_variance_Fin rs Hrs) in Hnz |- *.
  set (v := fold_left Rplus _ 0%R) in *.
  rewrite fdiv_Fin by congruence. cbn.
  replace (1 + - (0 / v))%R with 1%R by (unfold Rdiv; lra). done.
Qed.

Lemma validator_round_trip_witness :
  validate_model ((λ t, Fin 14.913 * decay t)%f64 <$> range 3) scenario
    = (Ok {| RMSE := Fin 0; MAE := Fin 0; R_squared := Fin 1 |}, scenario).
Proof.
  destruct (predicted_total_variance 14.913 3 ltac:(lra) ltac:(lia))
    as (v & Hv & Hvar).
  apply (validator_round_trip scenario
           ((λ t, Fin 14.913 * decay t)%f64 <$> range 3)).
  - rewrite <- (scenario_strategic_state 3).
    exact (predicted_outcomes_eval _ _ _ _ _ _ _
             (scenario_constructed 3) (scenario_pestel 3)
             (scenario_five_forces 3) (scenario_swot 3) (scenario_bcg 3)
             (scenario_ansoff 3) (scenario_blue_ocean 3)).
  - rewrite Hvar. congruence.
  - rewrite Hvar. simpl. tauto.
Defined.

(** ** Monotonicity of the PESTEL operator *)

Lemma pestel_term_in_range weights probabilities impacts j :
  (j < length weights)%nat → (j < length probabilities)%nat →
  (j < length impacts)%nat →
  pestel_term weights probabilities impacts j
    = Ok (pestel_term_at weights probabilities impacts j).
Proof.
  intros [w Hw]%lookup_lt_is_Some_2 [p Hp]%lookup_lt_is_Some_2
    [x Hx]%lookup_lt_is_Some_2.
  unfold pestel_term, pestel_term_at, index. by rewrite Hw, Hp, Hx.
Qed.

Lemma pestel_operator_parallel self factors weights probabilities impacts :
  framework_data self !! "pestel"
    = Some (PestelData factors weights probabilities impacts) →
  length weights = length factors →
  length probabilities = length factors →
  length impacts = length factors →
  pestel_operator self =
    (Ok (np_sum (pestel_term_at weights probabilities impacts
                   <$> seq 0 (length factors))), self).
Proof.
  intros H Hw Hp Hx. rewrite (pestel_operator_stored _ _ _ _ _ H).
  rewrite (mapM_result_Ok _ (pestel_term_at weights probabilities impacts));
    [done|].
  intros j Hj%elem_of_seq. apply pestel_term_in_range; lia.
Qed.

(** C9.  For a stored PESTEL input set whose four arrays have the same
    length, and an index [i] with [weight[i]·probability[i] >= 0],
    replacing [impact[i]] by a larger value, everything else stored
    being kept, never decreases the value the PESTEL operator returns:
    the new value is not below the old one (and is at least the old one
    whenever neither is NaN). *)
Theorem pestel_operator_monotone
    (self : ISAF) (factors : list string)
    (weights probabilities impacts : list float64)
    (i : nat) (w pr x x' : float64) :
  framework_data self !! "pestel"
    = Some (PestelData factors weights probabilities impacts) →
  length weights = length factors →
  length probabilities = length factors →
  length impacts = length factors →
  weights !! i = Some w →
  probabilities !! i = Some pr →
  impacts !! i = Some x →
  fle (Fin 0) (w * pr) →
  fle x x' →
  let self' :=
    state_after (set_pestel_data factors weights probabilities
                   (<[i := x']> impacts)) self in
  ∃ v v',
    pestel_operator self = (Ok v, self) ∧
    pestel_operator self' = (Ok v', self') ∧
    ¬ flt v' v ∧
    (¬ is_nan v → ¬ is_nan v' → fle v v').
Proof.
  intros H Hlw Hlp Hlx Hw Hp Hx Hpos Hle self'.
  eexists _, _. split; [by apply pestel_operator_parallel|].
  split.
  { apply (pestel_operator_parallel self' factors weights probabilities
             (<[i := x']> impacts)); [|done|done|by rewrite length_insert].
    subst self'. unfold state_after, set_pestel_data, setitem, modify. simpl.
    apply lookup_insert_eq. }
  assert (not_above
            (np_sum (pestel_term_at weights probabilities impacts
                       <$> seq 0 (length factors)))
            (np_sum (pestel_term_at weights probabilities (<[i := x']> impacts)
                       <$> seq 0 (length factors)))) as Hmono.
  { apply fold_left_fadd_not_above; [|apply not_above_refl].
    apply Forall2_fmap, Forall2_same_length_lookup. split; [done|].
    intros k j j' Hj Hj'. assert (j = j') as <- by congruence.
    unfold pestel_term_at. destruct (decide (j = i)) as [->|Hne].
    - rewrite list_lookup_insert_eq by (by eapply lookup_lt_Some).
      rewrite Hw, Hp, Hx. simpl. by apply fmul_not_above.
    - rewrite list_lookup_insert_ne by done. apply not_above_refl. }
  split; [by apply not_above_not_flt | by apply not_above_fle].
Qed.

Lemma pestel_operator_monotone_witness :
  let self' :=
    state_after (set_pestel_data ["A"; "B"] [Fin 0.6; Fin 0.4]
                   [Fin 0.5; Fin 0.5] (<[0%nat := Fin 11]> [Fin 10; Fin 20]))
      scenario in
  ∃ v v',
    pestel_operator scenario = (Ok v, scenario) ∧
    pestel_operator self' = (Ok v', self') ∧
    ¬ flt v' v ∧
    (¬ is_nan v → ¬ is_nan v' → fle v v').
Proof.
  apply (pestel_operator_monotone scenario ["A"; "B"] [Fin 0.6; Fin 0.4]
           [Fin 0.5; Fin 0.5] [Fin 10; Fin 20] 0 (Fin 0.6) (Fin 0.5)
           (Fin 10) (Fin 11));
    try reflexivity; simpl; lra.
Defined.

(** ** The objective of the optimizer *)

Lemma with_forces_again c c' W self :
  with_forces c W (with_forces c' W self) = with_forces c W self.
Proof.
  unfold with_forces, with_framework_data. simpl. by rewrite insert_insert_eq.
Qed.

Lemma with_forces_stored forces W self :
  framework_data self !! "five_forces" = Some (FiveForcesData forces W) →
  with_forces forces W self = self.
Proof.
  intros H. unfold with_forces, with_framework_data.
  rewrite insert_id by done. by destruct self.
Qed.

Lemma objective_eval self forces W candidate :
  framework_data self !! "five_forces" = Some (FiveForcesData forces W) →
  objective candidate self =
    (objective_value candidate W self, with_forces candidate W self).
Proof.
  intros H. unfold objective, objective_value.
  rewrite (bind_Ok _ _ _ _ _ (getitem_Some _ _ _ H)).
  unfold five_forces_1, setitem, modify, gets, mbind at 1 2 3, M_bind at 1 2 3.
  simpl. fold (with_forces candidate W self).
  pose proof (readonly_mapM unified_hyperfunctional_equation
                (range (time_horizon self))
                readonly_unified_hyperfunctional_equation
                (with_forces candidate W self)) as Hro.
  unfold mbind, M_bind.
  destruct (mapM unified_hyperfunctional_equation (range (time_horizon self))
              (with_forces candidate W self)) as [[values|e] self'];
    simpl in *; by subst.
Qed.

Lemma objective_missing self candidate :
  framework_data self !! "five_forces" = None →
  objective candidate self = (Raise KeyError, self).
Proof.
  intros H. unfold objective. by rewrite (bind_Raise _ _ _ _ _ (getitem_None _ _ H)).
Qed.

(** C6.  An evaluation of the objective on a candidate vector, on an
    object that holds a Five Forces input set (as it does whenever the
    optimizer evaluates its objective), leaves the candidate stored as
    the Five Forces vector, whether the evaluation returns or raises;
    the influence matrix [W], the input sets of the other five
    frameworks, the coupling coefficients, the decay vector and the time
    horizon are unchanged. *)
Theorem objective_overwrites_forces
    (self : ISAF) (forces candidate : list float64) (W : list (list float64)) :
  framework_data self !! "five_forces" = Some (FiveForcesData forces W) →
  let self' := state_after (objective candidate) self in
  framework_data self' !! "five_forces" = Some (FiveForcesData candidate W) ∧
  (∀ key, key ≠ "five_forces" →
          framework_data self' !! key = framework_data self !! key) ∧
  coupling_matrices self' = coupling_matrices self ∧
  temporal_coupling self' = temporal_coupling self ∧
  time_horizon self' = time_horizon self.
Proof.
  intros H self'. subst self'. unfold state_after.
  rewrite (objective_eval _ _ _ _ H). simpl.
  split; [apply lookup_insert_eq|]. split; [|done].
  intros key Hkey. by apply lookup_insert_ne.
Qed.

Lemma objective_overwrites_forces_witness :
  let self' := state_after (objective [Fin 0.5; Fin 0.5]) scenario in
  framework_data self' !! "five_forces"
    = Some (FiveForcesData [Fin 0.5; Fin 0.5] [[Fin 0; Fin 1]; [Fin 1; Fin 0]]) ∧
  (∀ key, key ≠ "five_forces" →
          framework_data self' !! key = framework_data scenario !! key) ∧
  coupling_matrices self' = coupling_matrices scenario ∧
  temporal_coupling self' = temporal_coupling scenario ∧
  time_horizon self' = time_horizon scenario.
Proof.
  apply (objective_overwrites_forces scenario [Fin 0.2; Fin 0.3]).
  reflexivity.
Defined.

(** ** The optimizer at work *)

(** Whatever the solver does, it leaves the object with some vector
    stored next to the unchanged influence matrix, and nothing else
    touched. *)
Lemma run_solver_frame (s : solver) self forces W :
  framework_data self !! "five_forces" = Some (FiveForcesData forces W) →
  ∃ c, state_after (run_solver objective s) self = with_forces c W self.
Proof.
  revert self forces. induction s as [res|c next IH]; intros self forces H.
  - exists forces. by rewrite with_forces_stored.
  - unfold state_after. simpl. unfold mbind, M_bind.
    rewrite (objective_eval _ _ _ _ H).
    destruct (objective_value c W self) as [value|e]; simpl; [|by exists c].
    destruct (IH value (with_forces c W self) c) as [c' Hc'].
    { simpl. apply lookup_insert_eq. }
    exists c'. unfold state_after in Hc'. by rewrite Hc', with_forces_again.
Qed.

Lemma with_forces_lookup_None c W self key :
  framework_data self !! "five_forces" ≠ None →
  framework_data self !! key = None →
  framework_data (with_forces c W self) !! key = None.
Proof.
  intros Hff Hkey. simpl. rewrite lookup_insert_ne; [done|].
  intros <-. done.
Qed.

Lemma state_after_readonly {A} (c : M A) self :
  readonly c → state_after c self = self.
Proof. intros Hc. apply Hc. Qed.

Lemma readonly_validate_model actual_outcomes :
  readonly (validate_model actual_outcomes).
Proof.
  unfold validate_model.
  repeat (apply readonly_bind;
          [auto using readonly_mapM,
             readonly_unified_hyperfunctional_equation with readonly|];
          intros ?).
  apply readonly_ret.
Qed.

Section OptimizerFrame.

Variable minimize : list float64 → list (float64 * float64) → solver.

Lemma optimize_strategy_frame self :
  state_after (optimize_strategy minimize) self = self ∨
  ∃ forces c W,
    framework_data self !! "five_forces" = Some (FiveForcesData forces W) ∧
    state_after (optimize_strategy minimize) self = with_forces c W self.
Proof.
  unfold state_after, optimize_strategy.
  destruct (framework_data self !! "five_forces") as [d|] eqn:H.
  - rewrite (bind_Ok _ _ _ _ _ (getitem_Some _ _ _ H)).
    destruct d as [| forces W | | | |]; try by left.
    right. exists forces.
    unfold five_forces_0, mbind at 1, M_bind at 1. simpl.
    destruct (run_solver_frame
                (minimize (initial_guess (length forces))
                   (bounds (length (initial_guess (length forces)))))
                self forces W H) as [c Hc].
    exists c, W. split; [done|]. unfold state_after in Hc.
    unfold mbind, M_bind.
    destruct (run_solver objective _ self) as [[res|e] self']; simpl in *;
      by subst.
  - left. by rewrite (bind_Raise _ _ _ _ _ (getitem_None _ _ H)).
Qed.

(** Without a Five Forces input set the optimizer raises before its
    objective is ever evaluated. *)
Lemma optimize_strategy_missing self :
  framework_data self !! "five_forces" = None →
  optimize_strategy minimize self = (Raise KeyError, self).
Proof.
  intros H. unfold optimize_strategy.
  by rewrite (bind_Raise _ _ _ _ _ (getitem_None _ _ H)).
Qed.

(** No call other than the setter of a framework stores under its key. *)
Lemma perform_lookup_None (c : call) self key :
  sets_key c ≠ Some key →
  framework_data self !! key = None →
  framework_data (perform minimize c self) !! key = None.
Proof.
  intros Hc Hkey.
  destruct c; simpl in Hc |- *;
    try (unfold state_after, set_pestel_data, set_five_forces_data,
           set_swot_data, set_bcg_data, set_ansoff_data, set_blue_ocean_data,
           setitem, modify; simpl;
         rewrite lookup_insert_ne; [done | congruence]).
  - by rewrite state_after_readonly by auto with readonly.
  - by rewrite state_after_readonly by auto with readonly.
  - by rewrite state_after_readonly by auto with readonly.
  - by rewrite state_after_readonly by auto with readonly.
  - by rewrite state_after_readonly by auto with readonly.
  - by rewrite state_after_readonly by auto with readonly.
  - by rewrite state_after_readonly
      by apply readonly_unified_hyperfunctional_equation.
  - destruct (optimize_strategy_frame self) as [->|(forces & c & W & H & ->)];
      [done|].
    apply with_forces_lookup_None; [by rewrite H | done].
  - by rewrite state_after_readonly by apply readonly_validate_model.
Qed.

(** No call writes to the time horizon, the decay vector or the coupling
    coefficients. *)
Lemma perform_frame (c : call) self :
  time_horizon (perform minimize c self) = time_horizon self ∧
  temporal_coupling (perform minimize c self) = temporal_coupling self ∧
  coupling_matrices (perform minimize c self) = coupling_matrices self.
Proof.
  destruct c; simpl; try done;
    try (by rewrite state_after_readonly by auto with readonly).
  - by rewrite state_after_readonly
      by apply readonly_unified_hyperfunctional_equation.
  - by destruct (optimize_strategy_frame self)
      as [->|(forces & c & W & H & ->)].
  - by rewrite state_after_readonly by apply readonly_validate_model.
Qed.

(** Every object a history of calls leaves behind still carries the
    decay vector of its constructor. *)
Lemma history_constructed T (calls : list call) :
  time_horizon (history minimize T calls) = T ∧
  constructed (history minimize T calls).
Proof.
  unfold history, constructed.
  induction calls as [|c calls IH] using rev_ind; [done|].
  rewrite fold_left_app. simpl.
  destruct (perform_frame c (fold_left (λ self c, perform minimize c self)
                               calls (__init__ T))) as (-> & -> & _).
  destruct IH as [IH1 IH2]. split; [done|]. rewrite IH1 in *. done.
Qed.

Lemma history_lookup_None T (calls : list call) key :
  (∀ c, c ∈ calls → sets_key c ≠ Some key) →
  framework_data (history minimize T calls) !! key = None.
Proof.
  unfold history. induction calls as [|c calls IH] using rev_ind; intros H.
  - done.
  - rewrite fold_left_app. simpl. apply perform_lookup_None.
    + apply H. apply elem_of_app. right. apply list_elem_of_here.
    + apply IH. intros c' Hc'. apply H. apply elem_of_app. by left.
Qed.

End OptimizerFrame.

(** ** Operators invoked before their input set was supplied *)

Lemma operator_missing fw self :
  framework_data self !! key_of fw = None →
  operator_of fw self = (Raise KeyError, self).
Proof.
  intros H.
  destruct fw; cbn [operator_of key_of] in *;
    unfold pestel_operator, five_forces_operator, swot_operator,
      bcg_operator, ansoff_operator, blue_ocean_operator;
    by rewrite (bind_Raise _ _ _ _ _ (getitem_None _ _ H)).
Qed.

(** C5.  On an object obtained from the constructor by any sequence of
    method calls among which the setter of a framework never occurs,
    that framework's operator raises [KeyError] (the exception that
    signals the missing input set) instead of returning a value, and
    leaves the object exactly as it was. *)
Theorem operator_before_setter
    (minimize : list float64 → list (float64 * float64) → solver)
    (T : Z) (calls : list call) (fw : framework) :
  (∀ c, c ∈ calls → sets_key c ≠ Some (key_of fw)) →
  let self := history minimize T calls in
  operator_of fw self = (Raise KeyError, self).
Proof.
  intros H self. apply operator_missing. by apply history_lookup_None.
Qed.

Lemma operator_before_setter_witness :
  let self :=
    history first_iterate 3
      [SetBcgData [Fin 0.5] [Fin 0.2]; BcgOperator; PestelOperator;
       OptimizeStrategy] in
  pestel_operator self = (Raise KeyError, self).
Proof.
  apply (operator_before_setter first_iterate 3
           [SetBcgData [Fin 0.5] [Fin 0.2]; BcgOperator; PestelOperator;
            OptimizeStrategy] Pestel).
  intros c Hc.
  repeat (apply elem_of_cons in Hc as [->|Hc]; [simpl; congruence|]).
  by apply elem_of_nil in Hc.
Defined.

(** ** The result of the optimizer *)

Lemma initial_guess_uniform n : initial_guess n = replicate n (Fin 0.5).
Proof. unfold initial_guess. simpl. do 2 f_equal. lra. Qed.

(** An operator only looks at what is stored under its own key. *)
Ltac operator_lookup H :=
  unfold returns, pestel_operator, five_forces_operator, swot_operator,
    bcg_operator, ansoff_operator, blue_ocean_operator,
    getitem, gets, mbind, M_bind; cbn [fst snd]; rewrite H;
  match goal with
  | |- context [?fd !! ?k] => destruct (fd !! k) as [[]|]
  end; try done;
  match goal with
  | |- context [lift ?r] => unfold lift; by destruct r
  end.

Lemma pestel_operator_lookup self self' p :
  framework_data self' !! "pestel" = framework_data self !! "pestel" →
  returns pestel_operator self p → returns pestel_operator self' p.
Proof. intros H. operator_lookup H. Qed.

Lemma swot_operator_lookup self self' v :
  framework_data self' !! "swot" = framework_data self !! "swot" →
  returns swot_operator self v → returns swot_operator self' v.
Proof. intros H. operator_lookup H. Qed.

Lemma bcg_operator_lookup self self' v :
  framework_data self' !! "bcg" = framework_data self !! "bcg" →
  returns bcg_operator self v → returns bcg_operator self' v.
Proof. intros H. operator_lookup H. Qed.

Lemma ansoff_operator_lookup self self' v :
  framework_data self' !! "ansoff" = framework_data self !! "ansoff" →
  returns ansoff_operator self v → returns ansoff_operator self' v.
Proof. intros H. operator_lookup H. Qed.

Lemma blue_ocean_operator_lookup self self' v :
  framework_data self' !! "blue_ocean" = framework_data self !! "blue_ocean" →
  returns blue_ocean_operator self v → returns blue_ocean_operator self' v.
Proof. intros H. operator_lookup H. Qed.

(** The Five Forces operator reads the influence matrix at the same
    places for every vector of the same length. *)
Lemma five_forces_operator_candidate self forces W f candidate :
  framework_data self !! "five_forces" = Some (FiveForcesData forces W) →
  returns five_forces_operator self f →
  length candidate = length forces →
  ∃ f', returns five_forces_operator (with_forces candidate W self) f'.
Proof.
  intros H Hf Hlen. unfold returns in *.
  rewrite (five_forces_operator_stored _ _ _ H) in Hf.
  erewrite five_forces_operator_stored by apply lookup_insert_eq.
  cbn [fst] in *. rewrite Hlen.
  destruct (mapM (five_forces_row forces W) _) as [rows|] eqn:Hrows; [|done].
  destruct (mapM_result_total (five_forces_row candidate W)
              (seq 0 (length forces))) as [rows' ->]; [|by eexists].
  intros i Hi.
  destruct (mapM_result_inv _ _ _ Hrows i Hi) as [r Hr].
  apply elem_of_seq in Hi.
  unfold five_forces_row in *. rewrite Hlen.
  destruct (lookup_lt_is_Some_2 candidate i ltac:(lia)) as [ci Hci].
  unfold index at 1. rewrite Hci. simpl.
  destruct (index forces i); [|done]. simpl in Hr.
  destruct (mapM (index2 W i) _); [|done]. by eexists.
Qed.

Section OptimizerResult.

Variable minimize : list float64 → list (float64 * float64) → solver.
Variables (self : ISAF) (forces : list float64) (W : list (list float64)).
Variables (p f s b a o : float64).
Hypothesis Hconstructed : constructed self.
Hypothesis Hstored :
  framework_data self !! "five_forces" = Some (FiveForcesData forces W).
Hypothesis Hp : returns pestel_operator self p.
Hypothesis Hf : returns five_forces_operator self f.
Hypothesis Hs : returns swot_operator self s.
Hypothesis Hb : returns bcg_operator self b.
Hypothesis Ha : returns ansoff_operator self a.
Hypothesis Ho : returns blue_ocean_operator self o.

Lemma predicted_outcomes_candidate candidate :
  length candidate = length forces →
  ∃ values,
    mapM unified_hyperfunctional_equation (range (time_horizon self))
         (with_forces candidate W self)
      = (Ok values, with_forces candidate W self).
Proof.
  intros Hlen.
  destruct (five_forces_operator_candidate _ _ _ _ _ Hstored Hf Hlen)
    as [f' Hf'].
  eexists.
  apply (predicted_outcomes_eval (with_forces candidate W self) p f' s b a o);
    [ exact Hconstructed
    | apply (pestel_operator_lookup self); [by apply lookup_insert_ne | done]
    | exact Hf'
    | apply (swot_operator_lookup self); [by apply lookup_insert_ne | done]
    | apply (bcg_operator_lookup self); [by apply lookup_insert_ne | done]
    | apply (ansoff_operator_lookup self); [by apply lookup_insert_ne | done]
    | apply (blue_ocean_operator_lookup self); [by apply lookup_insert_ne | done] ].
Qed.

Lemma objective_value_again c c0 :
  objective_value c W (with_forces c0 W self) = objective_value c W self.
Proof. unfold objective_value. by rewrite with_forces_again. Qed.

Lemma run_solver_honest (sv : solver) bnds seen c0 :
  length bnds = length forces →
  honest bnds seen sv →
  (∀ c v, (c, v) ∈ seen → objective_value c W self = Ok v) →
  ∃ res self',
    run_solver objective sv (with_forces c0 W self) = (Ok res, self') ∧
    within bnds (res_x res) ∧
    objective_value (res_x res) W self = Ok (res_fun res).
Proof.
  intros Hbnds. revert seen c0.
  induction sv as [res|c next IH]; intros seen c0 Hhonest Hseen.
  - destruct Hhonest as [Hwithin Hin]. exists res, (with_forces c0 W self).
    split; [done|]. split; [done|]. by apply Hseen.
  - destruct Hhonest as [Hlen Hnext]. simpl.
    destruct (predicted_outcomes_candidate c ltac:(congruence))
      as [values Hvalues].
    assert (objective c (with_forces c0 W self)
            = (Ok (- np_sum values)%f64, with_forces c W self)) as Hobj.
    { erewrite objective_eval by apply lookup_insert_eq.
      rewrite objective_value_again, with_forces_again.
      unfold objective_value. by rewrite Hvalues. }
    rewrite (bind_Ok _ _ _ _ _ Hobj).
    apply (IH _ ((c, fopp (np_sum values)) :: seen)).
    + apply Hnext.
    + intros c' v' [Heq|Hin]%elem_of_cons; [|by apply Hseen].
      injection Heq as -> ->. unfold objective_value. by rewrite Hvalues.
Qed.

End OptimizerResult.

Lemma within_unit_box n x :
  within (replicate n (Fin 0, Fin 1)) x →
  length x = n ∧ Forall (λ xi, fle (Fin 0) xi ∧ fle xi (Fin 1)) x.
Proof.
  unfold within. intros H. split.
  - apply Forall2_length in H. by rewrite length_replicate in H.
  - apply Forall_lookup. intros i xi Hxi.
    destruct (Forall2_lookup_r _ _ _ _ _ H Hxi) as (bnd & Hb & Hle).
    apply lookup_replicate in Hb as [-> _]. done.
Qed.

(** C7.  On an object that holds the six input sets, with a solver that
    keeps to its contract (candidates of the dimension of the problem, a
    reported point inside the bounds, a reported value that is the
    objective's at that point), [optimize_strategy] runs the solver on
    the objective from the uniform vector of 0.5 of length M under the
    bounds [0 <= forces[i] <= 1], and returns what that run reports: the
    reported vector, of length M with all its elements in [[0, 1]], and
    the reported value with its sign changed, which is the non-negated
    [Σ_{t<T} unified_equation(t)] evaluated with that vector stored as
    the Five Forces vector.  The object is left as the run left it. *)
Theorem optimize_strategy_feasible
    (minimize : list float64 → list (float64 * float64) → solver)
    (self : ISAF) (forces : list float64) (W : list (list float64))
    (p f s b a o : float64) :
  constructed self →
  framework_data self !! "five_forces" = Some (FiveForcesData forces W) →
  returns pestel_operator self p →
  returns five_forces_operator self f →
  returns swot_operator self s →
  returns bcg_operator self b →
  returns ansoff_operator self a →
  returns blue_ocean_operator self o →
  honest (replicate (length forces) (Fin 0, Fin 1)) []
    (minimize (replicate (length forces) (Fin 0.5))
              (replicate (length forces) (Fin 0, Fin 1))) →
  ∃ res self',
    run_solver objective
      (minimize (replicate (length forces) (Fin 0.5))
                (replicate (length forces) (Fin 0, Fin 1))) self
      = (Ok res, self') ∧
    optimize_strategy minimize self
      = (Ok (res_x res, (- res_fun res)%f64), self') ∧
    length (res_x res) = length forces ∧
    Forall (λ xi, fle (Fin 0) xi ∧ fle xi (Fin 1)) (res_x res) ∧
    ∃ values,
      mapM unified_hyperfunctional_equation (range (time_horizon self))
           (with_forces (res_x res) W self)
        = (Ok values, with_forces (res_x res) W self) ∧
      (- res_fun res)%f64 = np_sum values.
Proof.
  intros Hc Hstored Hp Hf Hs Hb Ha Ho Hhonest.
  destruct (run_solver_honest self forces W p f s b a o Hc Hstored
              Hp Hf Hs Hb Ha Ho _ _ [] forces
              (length_replicate _ _) Hhonest) as (res & self' & Hrun & Hin & Hval).
  { intros c v Hcv. by apply elem_of_nil in Hcv. }
  rewrite (with_forces_stored _ _ _ Hstored) in Hrun.
  apply within_unit_box in Hin as [Hlen Hbox].
  exists res, self'. split; [exact Hrun|]. split.
  { unfold optimize_strategy.
    rewrite (bind_Ok _ _ _ _ _ (getitem_Some _ _ _ Hstored)).
    unfold five_forces_0, mbind at 1, M_bind at 1. cbn [mret M_ret].
    rewrite initial_guess_uniform. unfold bounds. rewrite length_replicate.
    by rewrite (bind_Ok _ _ _ _ _ Hrun). }
  split; [done|]. split; [done|].
  destruct (predicted_outcomes_candidate self forces W p f s b a o Hc Hstored
              Hp Hf Hs Hb Ha Ho (res_x res) Hlen) as [values Hvalues].
  exists values. split; [done|].
  unfold objective_value in Hval. rewrite Hvalues in Hval.
  injection Hval as <-. apply fopp_involutive.
Qed.

Lemma optimize_strategy_feasible_witness :
  ∃ res self',
    run_solver objective
      (upper_corner (replicate 2 (Fin 0.5)) (replicate 2 (Fin 0, Fin 1)))
      scenario
      = (Ok res, self') ∧
    optimize_strategy upper_corner scenario
      = (Ok (res_x res, (- res_fun res)%f64), self') ∧
    length (res_x res) = 2%nat ∧
    Forall (λ xi, fle (Fin 0) xi ∧ fle xi (Fin 1)) (res_x res) ∧
    ∃ values,
      mapM unified_hyperfunctional_equation (range (time_horizon scenario))
           (with_forces (res_x res) [[Fin 0; Fin 1]; [Fin 1; Fin 0]] scenario)
        = (Ok values,
           with_forces (res_x res) [[Fin 0; Fin 1]; [Fin 1; Fin 0]] scenario) ∧
      (- res_fun res)%f64 = np_sum values.
Proof.
  apply (optimize_strategy_feasible upper_corner scenario
           [Fin 0.2; Fin 0.3] [[Fin 0; Fin 1]; [Fin 1; Fin 0]]
           (Fin 7) (Fin 0.75) (Fin 2) (Fin 0.1) (Fin 0.6) (Fin 2));
    [ exact (scenario_constructed 3) | reflexivity | exact (scenario_pestel 3)
    | exact (scenario_five_forces 3) | exact (scenario_swot 3)
    | exact (scenario_bcg 3) | exact (scenario_ansoff 3)
    | exact (scenario_blue_ocean 3) | ].
  split; [reflexivity|]. intros value0.
  split; [reflexivity|]. intros value. split.
  - repeat constructor; simpl; lra.
  - apply list_elem_of_here.
Defined.

(** * Further properties *)

(** ** The constructor *)

(** X1.  The decay vector the constructor computes has one entry per
    time step (none for a horizon that is not positive); every entry is
    a finite number in [[0, 1]], the first is 1, and the entries never
    increase along the vector.  (The bounds and the order are not
    strict: in [float64] the exponential underflows, and the entries
    are 0 from [t = 7452] on.) *)
Theorem decay_vector_shape (T : Z) :
  length (temporal_coupling (__init__ T)) = Z.to_nat T ∧
  (∀ (i : nat) x, temporal_coupling (__init__ T) !! i = Some x →
     ∃ r, x = Fin r ∧ (0 <= r <= 1)%R) ∧
  (∀ x, temporal_coupling (__init__ T) !! 0%nat = Some x → x = Fin 1) ∧
  (∀ (i j : nat) x y, (i ≤ j)%nat →
     temporal_coupling (__init__ T) !! i = Some x →
     temporal_coupling (__init__ T) !! j = Some y →
     fle y x).
Proof.
  assert (∀ (i : nat) x, temporal_coupling (__init__ T) !! i = Some x →
            x = Fin (exp (-0.1 * INR i))) as Hlookup.
  { intros i x Hx. simpl in Hx. rewrite list_lookup_fmap in Hx.
    destruct (range T !! i) as [t|] eqn:Ht; [|done].
    assert (i < Z.to_nat T)%nat as Hi
      by (rewrite <- length_range; by eapply lookup_lt_Some).
    rewrite lookup_range in Ht by done. injection Ht as <-.
    injection Hx as <-. by rewrite decay_exp, <- INR_IZR_INZ. }
  assert (∀ u v, (u <= v)%R → (exp (-0.1 * v) <= exp (-0.1 * u))%R) as Hexp.
  { intros u v [Hlt| ->]; [|lra]. left. apply exp_increasing. lra. }
  split; [apply length_decay_vector|]. split; [|split].
  - intros i x Hx. apply Hlookup in Hx as ->. eexists. split; [done|].
    split; [left; apply exp_pos|].
    pose proof (Hexp 0%R (INR i) (pos_INR i)) as Hle.
    by rewrite Rmult_0_r, exp_0 in Hle.
  - intros x Hx. apply Hlookup in Hx as ->. simpl.
    by rewrite Rmult_0_r, exp_0.
  - intros i j x y Hij Hx Hy. apply Hlookup in Hx as ->.
    apply Hlookup in Hy as ->. simpl. by apply Hexp, le_INR.
Qed.

(** ** What no method writes *)

Section Invariants.

Variable minimize : list float64 → list (float64 * float64) → solver.

Lemma perform_well_tagged (c : call) self :
  (∀ key d, framework_data self !! key = Some d → well_tagged key d) →
  ∀ key d, framework_data (perform minimize c self) !! key = Some d →
           well_tagged key d.
Proof.
  intros Hself key d.
  destruct c; simpl;
    try (unfold state_after, set_pestel_data, set_five_forces_data,
           set_swot_data, set_bcg_data, set_ansoff_data, set_blue_ocean_data,
           setitem, modify; simpl;
         rewrite lookup_insert; case_decide as Hk;
         [intros [= <-]; by rewrite <- Hk | apply Hself]);
    try (rewrite state_after_readonly by auto with readonly; apply Hself).
  - rewrite state_after_readonly
      by apply readonly_unified_hyperfunctional_equation. apply Hself.
  - destruct (optimize_strategy_frame minimize self)
      as [->|(forces & c & W & H & ->)]; [apply Hself|].
    simpl. rewrite lookup_insert. case_decide as Hk; [|apply Hself].
    intros [= <-]. by rewrite <- Hk.
  - rewrite state_after_readonly by apply readonly_validate_model.
    apply Hself.
Qed.

(** X2.  No method writes to the time horizon, to the decay vector or
    to the coupling coefficients: after any sequence of method calls the
    object has the horizon and the decay vector of its constructor and
    an empty coefficient map, so that the unified equation uses 0.3 for
    every pair. *)
Theorem history_keeps_constructor_fields (T : Z) (calls : list call) :
  time_horizon (history minimize T calls) = T ∧
  temporal_coupling (history minimize T calls) = decay <$> range T ∧
  coupling_matrices (history minimize T calls) = ∅ ∧
  ∀ a b, coupling (coupling_matrices (history minimize T calls)) a b = Fin 0.3.
Proof.
  assert (time_horizon (history minimize T calls) = T ∧
          temporal_coupling (history minimize T calls) = decay <$> range T ∧
          coupling_matrices (history minimize T calls) = ∅) as (H1 & H2 & H3).
  { unfold history. induction calls as [|c calls IH] using rev_ind; [done|].
    rewrite fold_left_app. simpl.
    by destruct (perform_frame minimize c
                   (fold_left (λ self c, perform minimize c self)
                      calls (__init__ T))) as (-> & -> & ->). }
  repeat split; try done. intros a b. unfold coupling. by rewrite H3.
Qed.

(** X3.  After any sequence of method calls the registry holds, under
    each key, a tuple stored for that very framework: its keys are among
    the six framework names and a key never holds another framework's
    data. *)
Theorem history_well_tagged (T : Z) (calls : list call) (key : string)
    (d : fw_input) :
  framework_data (history minimize T calls) !! key = Some d →
  well_tagged key d ∧
  key ∈ ["pestel"; "five_forces"; "swot"; "bcg"; "ansoff"; "blue_ocean"].
Proof.
  intros H.
  assert (well_tagged key d) as Htag.
  { revert key d H. unfold history.
    induction calls as [|c calls IH] using rev_ind; [done|].
    rewrite fold_left_app. simpl. by apply perform_well_tagged. }
  split; [done|]. destruct d; simpl in Htag; subst key; set_solver.
Qed.

End Invariants.

Lemma history_well_tagged_witness :
  well_tagged "bcg" (BcgData [Fin 0.5] [Fin 0.2]) ∧
  "bcg" ∈ ["pestel"; "five_forces"; "swot"; "bcg"; "ansoff"; "blue_ocean"].
Proof.
  apply (history_well_tagged first_iterate 3
           [SetBcgData [Fin 0.5] [Fin 0.2]; OptimizeStrategy]).
  reflexivity.
Defined.

(** ** The registry: latest snapshot, and independence of the frameworks *)

(** An operator only looks at what is stored under its own key. *)
Lemma operator_of_lookup fw self self' :
  framework_data self' !! key_of fw = framework_data self !! key_of fw →
  (operator_of fw self').1 = (operator_of fw self).1.
Proof.
  intros H.
  destruct fw; cbn [operator_of key_of] in *;
    unfold pestel_operator, five_forces_operator, swot_operator,
      bcg_operator, ansoff_operator, blue_ocean_operator,
      getitem, gets, mbind, M_bind; cbn [fst snd]; rewrite H;
    match goal with
    | |- context [?fd !! ?k] => destruct (fd !! k) as [[]|]
    end; done.
Qed.

(** X4.  A call leaves the result of a framework's operator as it was,
    unless it is that framework's setter or, for Five Forces,
    [optimize_strategy]. *)
Theorem operator_unaffected_by_other_calls
    (minimize : list float64 → list (float64 * float64) → solver)
    (c : call) (fw : framework) (self : ISAF) :
  sets_key c ≠ Some (key_of fw) →
  c ≠ OptimizeStrategy ∨ fw ≠ FiveForces →
  (operator_of fw (perform minimize c self)).1 = (operator_of fw self).1.
Proof.
  intros Hset Hopt. apply operator_of_lookup.
  destruct c; simpl in Hset |- *;
    try (unfold state_after, set_pestel_data, set_five_forces_data,
           set_swot_data, set_bcg_data, set_ansoff_data, set_blue_ocean_data,
           setitem, modify; simpl;
         rewrite lookup_insert_ne; [done | congruence]);
    try (by rewrite state_after_readonly by auto with readonly).
  - by rewrite state_after_readonly
      by apply readonly_unified_hyperfunctional_equation.
  - destruct (optimize_strategy_frame minimize self)
      as [->|(forces & c & W & H & ->)]; [done|].
    simpl. rewrite lookup_insert_ne; [done|].
    destruct Hopt as [?|Hfw]; [done|]. by destruct fw.
  - by rewrite state_after_readonly by apply readonly_validate_model.
Qed.

Lemma operator_unaffected_by_other_calls_witness :
  (pestel_operator
     (perform first_iterate (SetBcgData [Fin 1] [Fin 1]) scenario)).1
  = (pestel_operator scenario).1.
Proof.
  apply (operator_unaffected_by_other_calls first_iterate
           (SetBcgData [Fin 1] [Fin 1]) Pestel scenario).
  - simpl. congruence.
  - left. congruence.
Defined.

(** X5.  A setter replaces whatever was stored for its framework: after
    it, the framework's operator returns or raises the same on any two
    objects, whatever they held before. *)
Theorem setter_overwrites
    (minimize : list float64 → list (float64 * float64) → solver)
    (c : call) (fw : framework) (self1 self2 : ISAF) :
  sets_key c = Some (key_of fw) →
  (operator_of fw (perform minimize c self1)).1
  = (operator_of fw (perform minimize c self2)).1.
Proof.
  intros Hset. apply operator_of_lookup.
  destruct c; simpl in Hset |- *; try done;
    unfold state_after, set_pestel_data, set_five_forces_data,
      set_swot_data, set_bcg_data, set_ansoff_data, set_blue_ocean_data,
      setitem, modify; simpl;
    injection Hset as <-; by rewrite !lookup_insert_eq.
Qed.

Lemma setter_overwrites_witness :
  (bcg_operator (perform first_iterate (SetBcgData [Fin 1] [Fin 1]) scenario)).1
  = (bcg_operator
       (perform first_iterate (SetBcgData [Fin 1] [Fin 1]) (__init__ 5))).1.
Proof.
  apply (setter_overwrites first_iterate (SetBcgData [Fin 1] [Fin 1]) Bcg
           scenario (__init__ 5)).
  reflexivity.
Defined.

(** ** Arrays that are too short, entries that are never read *)

Lemma mapM_result_ext {A B} (f g : A → result B) (l : list A) :
  (∀ x, x ∈ l → f x = g x) → mapM f l = mapM g l.
Proof.
  induction l as [|a l IH]; intros H; simpl; [done|].
  rewrite (H a (list_elem_of_here _ _)), IH; [done|].
  intros x Hx. apply H. by apply list_elem_of_further.
Qed.

Lemma mapM_result_Raise {A B} (f : A → result B) (l : list A) e :
  mapM f l = Raise e → ∃ x, x ∈ l ∧ f x = Raise e.
Proof.
  induction l as [|a l IH]; simpl; [done|].
  destruct (f a) as [b|e'] eqn:Hfa; simpl.
  - destruct (mapM f l) as [bs|e'] eqn:Hl; simpl; [done|].
    intros [= ->]. destruct IH as (x & Hx & Hfx); [done|].
    exists x. split; [by apply list_elem_of_further | done].
  - intros [= ->]. exists a. split; [apply list_elem_of_here | done].
Qed.

Lemma mapM_result_fails {A B} (f : A → result B) (l : list A) x e :
  x ∈ l → f x = Raise e → ∃ e', mapM f l = Raise e'.
Proof.
  intros Hx Hfx. destruct (mapM f l) as [ys|e'] eqn:Hl; [|by eexists].
  destruct (mapM_result_inv _ _ _ Hl x Hx) as [y Hy]. congruence.
Qed.

Lemma index_cases {A} (a : list A) (i : nat) :
  (∃ y, index a i = Ok y) ∨ index a i = Raise IndexError.
Proof. unfold index. destruct (a !! i); eauto. Qed.

Lemma pestel_term_cases weights probabilities impacts j :
  (∃ y, pestel_term weights probabilities impacts j = Ok y) ∨
  pestel_term weights probabilities impacts j = Raise IndexError.
Proof.
  unfold pestel_term, index.
  destruct (weights !! j), (probabilities !! j), (impacts !! j);
    simpl; eauto.
Qed.

Lemma pestel_term_short weights probabilities impacts j :
  (length weights ≤ j ∨ length probabilities ≤ j ∨ length impacts ≤ j)%nat →
  pestel_term weights probabilities impacts j = Raise IndexError.
Proof.
  intros H. unfold pestel_term, index.
  destruct (weights !! j) eqn:Hw, (probabilities !! j) eqn:Hp,
    (impacts !! j) eqn:Hx; simpl; try done.
  apply lookup_lt_Some in Hw, Hp, Hx. lia.
Qed.

(** X6.  The PESTEL operator reads the three numeric arrays at the
    indices of [factors] only.  When each array is at least as long as
    [factors] it returns the sum of the first [len(factors)] products
    (so 0 for no factors at all); when one of them is shorter it raises
    [IndexError].  Either way the object is left as it was. *)
Theorem pestel_operator_array_lengths
    (self : ISAF) (factors : list string)
    (weights probabilities impacts : list float64) :
  framework_data self !! "pestel"
    = Some (PestelData factors weights probabilities impacts) →
  ((length factors ≤ length weights ∧ length factors ≤ length probabilities ∧
    length factors ≤ length impacts)%nat →
   pestel_operator self =
     (Ok (np_sum (pestel_term_at weights probabilities impacts
                    <$> seq 0 (length factors))), self)) ∧
  ((length weights < length factors ∨ length probabilities < length factors ∨
    length impacts < length factors)%nat →
   pestel_operator self = (Raise IndexError, self)).
Proof.
  intros H. rewrite (pestel_operator_stored _ _ _ _ _ H). split.
  - intros (Hw & Hp & Hx).
    rewrite (mapM_result_Ok _ (pestel_term_at weights probabilities impacts));
      [done|].
    intros j Hj%elem_of_seq. apply pestel_term_in_range; lia.
  - intros Hshort.
    set (j := Nat.min (Nat.min (length weights) (length probabilities))
                (length impacts)).
    destruct (mapM_result_fails (pestel_term weights probabilities impacts)
                (seq 0 (length factors)) j IndexError) as [e He].
    { apply elem_of_seq. lia. }
    { apply pestel_term_short. lia. }
    rewrite He. simpl.
    destruct (mapM_result_Raise _ _ _ He) as (k & _ & Hk).
    destruct (pestel_term_cases weights probabilities impacts k)
      as [[y Hy]|Hr]; congruence.
Qed.

Lemma pestel_operator_array_lengths_witness :
  pestel_operator scenario =
    (Ok (np_sum (pestel_term_at [Fin 0.6; Fin 0.4] [Fin 0.5; Fin 0.5]
                   [Fin 10; Fin 20] <$> seq 0 2)), scenario) ∧
  pestel_operator
    (state_after (set_pestel_data ["A"; "B"] [Fin 0.6] [Fin 0.5; Fin 0.5]
                    [Fin 10; Fin 20]) scenario)
  = (Raise IndexError,
     state_after (set_pestel_data ["A"; "B"] [Fin 0.6] [Fin 0.5; Fin 0.5]
                    [Fin 10; Fin 20]) scenario).
Proof.
  split.
  - apply (proj1 (pestel_operator_array_lengths scenario ["A"; "B"]
                    [Fin 0.6; Fin 0.4] [Fin 0.5; Fin 0.5] [Fin 10; Fin 20]
                    eq_refl)).
    simpl. lia.
  - apply (proj2 (pestel_operator_array_lengths
                    (state_after
                       (set_pestel_data ["A"; "B"] [Fin 0.6]
                          [Fin 0.5; Fin 0.5] [Fin 10; Fin 20]) scenario)
                    ["A"; "B"] [Fin 0.6] [Fin 0.5; Fin 0.5] [Fin 10; Fin 20]
                    eq_refl)).
    simpl. lia.
Defined.

(** X7.  The PESTEL operator ignores every entry of the numeric arrays
    beyond the length of [factors]: cutting the three arrays down to
    that length changes neither what it returns nor whether it
    raises. *)
Theorem pestel_operator_ignores_extra_entries
    (self : ISAF) (factors : list string)
    (weights probabilities impacts : list float64) :
  framework_data self !! "pestel"
    = Some (PestelData factors weights probabilities impacts) →
  (pestel_operator
     (state_after
        (set_pestel_data factors
           (take (length factors) weights)
           (take (length factors) probabilities)
           (take (length factors) impacts)) self)).1
  = (pestel_operator self).1.
Proof.
  intros H. rewrite (pestel_operator_stored _ _ _ _ _ H).
  erewrite pestel_operator_stored by apply lookup_insert_eq.
  cbn [fst]. f_equal. apply mapM_result_ext.
  intros j Hj%elem_of_seq. unfold pestel_term, index.
  by rewrite !lookup_take_lt by lia.
Qed.

Lemma pestel_operator_ignores_extra_entries_witness :
  (pestel_operator
     (state_after
        (set_pestel_data ["A"; "B"]
           (take 2 [Fin 0.6; Fin 0.4]) (take 2 [Fin 0.5; Fin 0.5])
           (take 2 [Fin 10; Fin 20])) scenario)).1
  = (pestel_operator scenario).1.
Proof.
  apply (pestel_operator_ignores_extra_entries scenario ["A"; "B"]
           [Fin 0.6; Fin 0.4] [Fin 0.5; Fin 0.5] [Fin 10; Fin 20]).
  reflexivity.
Defined.

(** ** The Five Forces operator and its influence matrix *)

Lemma elem_of_off_diagonal (i j n : nat) :
  j ∈ List.filter (λ j, negb (j =? i)%nat) (seq 0 n) ↔ (j < n)%nat ∧ j ≠ i.
Proof.
  rewrite list_elem_of_In, List.filter_In, List.in_seq.
  rewrite Bool.negb_true_iff, Nat.eqb_neq. lia.
Qed.

Lemma index2_cases W i j :
  (∃ y, index2 W i j = Ok y) ∨ index2 W i j = Raise IndexError.
Proof.
  unfold index2, index. destruct (W !! i) as [row|]; simpl; [|eauto].
  destruct (row !! j); eauto.
Qed.

Lemma five_forces_row_cases forces W i :
  (∃ y, five_forces_row forces W i = Ok y) ∨
  five_forces_row forces W i = Raise IndexError.
Proof.
  unfold five_forces_row.
  destruct (index_cases forces i) as [[f ->]| ->]; simpl; [|by right].
  destruct (mapM (index2 W i) _) as [ws|e] eqn:Hws; simpl; [eauto|].
  right. destruct (mapM_result_Raise _ _ _ Hws) as (j & _ & Hj).
  destruct (index2_cases W i j) as [[y Hy]|Hr]; congruence.
Qed.

(** X8.  The Five Forces operator reads the influence matrix at the
    places [(i, j)] with [i ≠ j] and [i, j < M], and nowhere else: when
    all of them exist it returns a value, and as soon as one is missing
    it raises [IndexError] (never another exception); the object is left
    as it was. *)
Theorem five_forces_operator_reads
    (self : ISAF) (forces : list float64) (W : list (list float64)) :
  framework_data self !! "five_forces" = Some (FiveForcesData forces W) →
  ((∀ i j, (i < length forces)%nat → (j < length forces)%nat → i ≠ j →
           ∃ y, index2 W i j = Ok y) →
   ∃ v, five_forces_operator self = (Ok v, self)) ∧
  (∀ i j, (i < length forces)%nat → (j < length forces)%nat → i ≠ j →
          index2 W i j = Raise IndexError →
          five_forces_operator self = (Raise IndexError, self)).
Proof.
  intros H. rewrite (five_forces_operator_stored _ _ _ H). split.
  - intros Hall.
    destruct (mapM_result_total (five_forces_row forces W)
                (seq 0 (length forces))) as [rows ->]; [|by eexists].
    intros i Hi%elem_of_seq. unfold five_forces_row.
    destruct (lookup_lt_is_Some_2 forces i ltac:(lia)) as [fi Hfi].
    unfold index at 1. rewrite Hfi. simpl.
    destruct (mapM_result_total (index2 W i)
                (List.filter (λ j, negb (j =? i)%nat) (seq 0 (length forces))))
      as [ws ->]; [|by eexists].
    intros j [Hj Hne]%elem_of_off_diagonal. apply Hall; [lia|done|done].
  - intros i j Hi Hj Hne Hmissing.
    assert (∃ e, five_forces_row forces W i = Raise e) as [e He].
    { unfold five_forces_row.
      destruct (lookup_lt_is_Some_2 forces i Hi) as [fi Hfi].
      unfold index at 1. rewrite Hfi. simpl.
      destruct (mapM_result_fails (index2 W i)
                  (List.filter (λ j, negb (j =? i)%nat) (seq 0 (length forces)))
                  j IndexError) as [e' ->]; [|done|by eexists].
      by apply elem_of_off_diagonal. }
    destruct (mapM_result_fails (five_forces_row forces W)
                (seq 0 (length forces)) i e) as [e' He']; [|done|].
    { apply elem_of_seq. lia. }
    rewrite He'. simpl.
    destruct (mapM_result_Raise _ _ _ He') as (k & _ & Hk).
    destruct (five_forces_row_cases forces W k) as [[y Hy]|Hr]; congruence.
Qed.

Lemma five_forces_operator_reads_witness :
  (∃ v, five_forces_operator scenario = (Ok v, scenario)) ∧
  five_forces_operator
    (state_after (set_five_forces_data [Fin 0.2; Fin 0.3] [[Fin 0; Fin 1]])
       scenario)
  = (Raise IndexError,
     state_after (set_five_forces_data [Fin 0.2; Fin 0.3] [[Fin 0; Fin 1]])
       scenario).
Proof.
  split.
  - apply (proj1 (five_forces_operator_reads scenario [Fin 0.2; Fin 0.3]
                    [[Fin 0; Fin 1]; [Fin 1; Fin 0]] eq_refl)).
    intros [|[|i]] [|[|j]] Hi Hj Hne; simpl in *;
      try lia; try done; by eexists.
  - apply (proj2 (five_forces_operator_reads
                    (state_after
                       (set_five_forces_data [Fin 0.2; Fin 0.3]
                          [[Fin 0; Fin 1]]) scenario)
                    [Fin 0.2; Fin 0.3] [[Fin 0; Fin 1]] eq_refl)
             1%nat 0%nat); simpl; try lia; done.
Defined.

(** X9.  The diagonal of the influence matrix is ignored: two matrices
    that agree at every place off the diagonal give the same result,
    for the same forces. *)
Theorem five_forces_operator_ignores_diagonal
    (self self' : ISAF) (forces : list float64) (W W' : list (list float64)) :
  framework_data self !! "five_forces" = Some (FiveForcesData forces W) →
  framework_data self' !! "five_forces" = Some (FiveForcesData forces W') →
  (∀ i j, i ≠ j → index2 W i j = index2 W' i j) →
  (five_forces_operator self').1 = (five_forces_operator self).1.
Proof.
  intros H H' Hagree.
  rewrite (five_forces_operator_stored _ _ _ H),
    (five_forces_operator_stored _ _ _ H').
  cbn [fst]. f_equal. apply mapM_result_ext.
  intros i _. unfold five_forces_row.
  destruct (index forces i) as [fi|]; simpl; [|done].
  rewrite (mapM_result_ext (index2 W' i) (index2 W i)); [done|].
  intros j [_ Hne]%elem_of_off_diagonal. symmetry. by apply Hagree.
Qed.

Lemma five_forces_operator_ignores_diagonal_witness :
  (five_forces_operator
     (state_after (set_five_forces_data [Fin 0.2; Fin 0.3]
                     [[Fin 9; Fin 1]; [Fin 1; Fin 7]]) scenario)).1
  = (five_forces_operator scenario).1.
Proof.
  apply (five_forces_operator_ignores_diagonal scenario _
           [Fin 0.2; Fin 0.3] [[Fin 0; Fin 1]; [Fin 1; Fin 0]]
           [[Fin 9; Fin 1]; [Fin 1; Fin 7]]).
  - reflexivity.
  - reflexivity.
  - intros [|[|i]] [|[|j]] Hne; try done.
Defined.

(** X10.  With a single finite force the influence matrix is never
    read, whatever it holds, and the attractiveness is 1; with no force
    at all the operator returns NaN ([1 - 0.0/0]) without raising. *)
Theorem five_forces_operator_degenerate
    (self : ISAF) (forces : list float64) (W : list (list float64)) :
  framework_data self !! "five_forces" = Some (FiveForcesData forces W) →
  (forces = [] → five_forces_operator self = (Ok NaN, self)) ∧
  (∀ r, forces = [Fin r] → five_forces_operator self = (Ok (Fin 1), self)).
Proof.
  intros H. rewrite (five_forces_operator_stored _ _ _ H). split.
  - intros ->. cbn. destruct (Req_dec_T 0 0); [done|lra].
  - intros r ->. f64_eval. do 3 f_equal. lra.
Qed.

Lemma five_forces_operator_degenerate_witness :
  five_forces_operator
    (state_after (set_five_forces_data [] []) scenario)
  = (Ok NaN, state_after (set_five_forces_data [] []) scenario) ∧
  five_forces_operator
    (state_after (set_five_forces_data [Fin 0.4] []) scenario)
  = (Ok (Fin 1), state_after (set_five_forces_data [Fin 0.4] []) scenario).
Proof.
  split.
  - apply (proj1 (five_forces_operator_degenerate
                    (state_after (set_five_forces_data [] []) scenario)
                    [] [] eq_refl)).
    reflexivity.
  - apply (proj2 (five_forces_operator_degenerate
                    (state_after (set_five_forces_data [Fin 0.4] []) scenario)
                    [Fin 0.4] [] eq_refl) 0.4%R).
    reflexivity.
Defined.

(** ** The element-wise operators *)

Lemma fmul_comm x y : (x * y)%f64 = (y * x)%f64.
Proof.
  destruct x as [a|s|], y as [b|s'|]; simpl; try done.
  - f_equal. lra.
  - destruct (Req_dec_T a 0); [done|]. by rewrite Bool.xorb_comm.
  - destruct (Req_dec_T b 0); [done|]. by rewrite Bool.xorb_comm.
  - by rewrite Bool.xorb_comm.
Qed.

Lemma fopp_fadd x y : (- (x + y))%f64 = (- x + - y)%f64.
Proof.
  destruct x as [a|s|], y as [b|s'|]; simpl; try done.
  - f_equal. lra.
  - by destruct s, s'.
Qed.

Lemma fsub_swap x y : (x - y)%f64 = (- (y - x))%f64.
Proof.
  destruct x as [a|s|], y as [b|s'|]; simpl; try done.
  - f_equal. lra.
  - by destruct s.
  - by destruct s, s'.
Qed.

Lemma fdiv_fopp_l x b : (- x / Fin b)%f64 = (- (x / Fin b))%f64.
Proof.
  destruct x as [a|s|]; simpl; [| |done].
  - destruct (Req_dec_T b 0).
    + destruct (Req_dec_T (- a) 0), (Req_dec_T a 0); try lra; [done|].
      simpl. f_equal. unfold Rneg.
      destruct (Rlt_dec (- a) 0), (Rlt_dec a 0); try done; lra.
    + simpl. f_equal. field. done.
  - f_equal. by destruct s, (Rneg b).
Qed.

Lemma fold_left_fadd_fopp l acc :
  fold_left fadd (fopp <$> l) (- acc)%f64 = (- fold_left fadd l acc)%f64.
Proof.
  revert acc. induction l as [|x l IH]; intros acc; [done|].
  rewrite fmap_cons. cbn [fold_left]. by rewrite <- fopp_fadd, IH.
Qed.

Lemma np_mean_fopp l : np_mean (fopp <$> l) = (- np_mean l)%f64.
Proof.
  unfold np_mean, np_sum, of_len. rewrite length_fmap, <- fdiv_fopp_l.
  f_equal. rewrite <- fold_left_fadd_fopp. do 2 f_equal. simpl. f_equal. lra.
Qed.

Lemma broadcast_flip op xs ys :
  broadcast op xs ys = broadcast (λ y x, op x y) ys xs.
Proof.
  unfold broadcast. rewrite (Nat.eqb_sym (length ys)).
  destruct (length xs =? length ys)%nat eqn:Hlen.
  - f_equal. symmetry. apply (zip_with_flip op).
  - destruct xs as [|x [|x' xs]], ys as [|y [|y' ys]]; simpl in *; done.
Qed.

Lemma broadcast_ext op op' xs ys :
  (∀ x y, op x y = op' x y) → broadcast op xs ys = broadcast op' xs ys.
Proof.
  intros H. unfold broadcast.
  destruct (length xs =? length ys)%nat.
  - f_equal. revert ys. induction xs as [|x xs IH]; intros [|y ys]; simpl;
      try done. by rewrite H, IH.
  - destruct xs as [|x [|x' xs]], ys as [|y [|y' ys]]; simpl;
      rewrite ?H; try done;
      do 3 f_equal; apply list_fmap_ext; intros; apply H.
Qed.

Lemma broadcast_fmap (g : float64 → float64) op xs ys :
  broadcast (λ x y, g (op x y)) xs ys
  = (λ l : list float64, g <$> l) <$> broadcast op xs ys.
Proof.
  unfold broadcast. destruct (length xs =? length ys)%nat.
  - simpl. f_equal. revert ys.
    induction xs as [|x xs IH]; intros [|y ys]; simpl; try done.
    by rewrite IH.
  - destruct xs as [|x [|x' xs]], ys as [|y [|y' ys]]; simpl; try done;
      do 3 f_equal; by rewrite <- list_fmap_compose.
Qed.

Lemma broadcast_mismatch op xs ys :
  length xs ≠ length ys → length xs ≠ 1%nat → length ys ≠ 1%nat →
  broadcast op xs ys = Raise ValueError.
Proof.
  intros Hne Hx Hy. unfold broadcast.
  rewrite (proj2 (Nat.eqb_neq _ _) Hne).
  destruct xs as [|x [|x' xs]], ys as [|y [|y' ys]]; simpl in *; done.
Qed.

(** X11.  The BCG score is symmetric in its two vectors: storing them
    in the other order gives the same result, broadcasting and failures
    included. *)
Theorem bcg_operator_symmetric
    (self self' : ISAF) (market_share growth_rate : list float64) :
  framework_data self !! "bcg" = Some (BcgData market_share growth_rate) →
  framework_data self' !! "bcg" = Some (BcgData growth_rate market_share) →
  (bcg_operator self').1 = (bcg_operator self).1.
Proof.
  intros H H'.
  rewrite (bcg_operator_stored _ _ _ H), (bcg_operator_stored _ _ _ H').
  cbn [fst]. f_equal. rewrite broadcast_flip. apply broadcast_ext.
  intros x y. apply fmul_comm.
Qed.

Lemma bcg_operator_symmetric_witness :
  (bcg_operator (state_after (set_bcg_data [Fin 0.2] [Fin 0.5]) scenario)).1
  = (bcg_operator scenario).1.
Proof.
  apply (bcg_operator_symmetric scenario _ [Fin 0.5] [Fin 0.2]);
    reflexivity.
Defined.

(** X12.  Exchanging success and risk changes the sign of the Ansoff
    score: with the two vectors stored in the other order the operator
    returns the negated value, and raises when the original raises. *)
Theorem ansoff_operator_antisymmetric
    (self self' : ISAF) (success risk : list float64) :
  framework_data self !! "ansoff" = Some (AnsoffData success risk) →
  framework_data self' !! "ansoff" = Some (AnsoffData risk success) →
  (ansoff_operator self').1 = fopp <$> (ansoff_operator self).1.
Proof.
  intros H H'.
  rewrite (ansoff_operator_stored _ _ _ H), (ansoff_operator_stored _ _ _ H').
  cbn [fst]. rewrite broadcast_flip.
  rewrite (broadcast_ext _ (λ x y, fopp (fsub x y)))
    by (intros x y; apply fsub_swap).
  rewrite broadcast_fmap.
  destruct (broadcast fsub success risk) as [l|e]; simpl; [|done].
  by rewrite np_mean_fopp.
Qed.

Lemma ansoff_operator_antisymmetric_witness :
  (ansoff_operator
     (state_after (set_ansoff_data [Fin 0.1] [Fin 0.7]) scenario)).1
  = fopp <$> (ansoff_operator scenario).1.
Proof.
  apply (ansoff_operator_antisymmetric scenario _ [Fin 0.7] [Fin 0.1]);
    reflexivity.
Defined.

(** X13.  The BCG, Ansoff and Blue Ocean operators raise [ValueError],
    leaving the object as it was, when their two vectors have different
    lengths and neither has length one (a vector of length one is
    broadcast instead). *)
Theorem elementwise_operators_shape_mismatch
    (self : ISAF) (xs ys : list float64) :
  length xs ≠ length ys → length xs ≠ 1%nat → length ys ≠ 1%nat →
  (framework_data self !! "bcg" = Some (BcgData xs ys) →
   bcg_operator self = (Raise ValueError, self)) ∧
  (framework_data self !! "ansoff" = Some (AnsoffData xs ys) →
   ansoff_operator self = (Raise ValueError, self)) ∧
  (framework_data self !! "blue_ocean" = Some (BlueOceanData xs ys) →
   blue_ocean_operator self = (Raise ValueError, self)).
Proof.
  intros Hne Hx Hy. repeat split; intros H.
  - by rewrite (bcg_operator_stored _ _ _ H), broadcast_mismatch.
  - by rewrite (ansoff_operator_stored _ _ _ H), broadcast_mismatch.
  - by rewrite (blue_ocean_operator_stored _ _ _ H), broadcast_mismatch.
Qed.

Lemma elementwise_operators_shape_mismatch_witness :
  bcg_operator
    (state_after (set_bcg_data [Fin 1; Fin 2] [Fin 1; Fin 2; Fin 3]) scenario)
  = (Raise ValueError,
     state_after (set_bcg_data [Fin 1; Fin 2] [Fin 1; Fin 2; Fin 3]) scenario).
Proof.
  apply (elementwise_operators_shape_mismatch
           (state_after (set_bcg_data [Fin 1; Fin 2] [Fin 1; Fin 2; Fin 3])
              scenario)
           [Fin 1; Fin 2] [Fin 1; Fin 2; Fin 3]);
    simpl; try lia; reflexivity.
Defined.

(** ** The unified equation: failures and coefficients *)

Lemma raises_readonly {A} (c : M A) self e :
  readonly c → raises c self e → c self = (Raise e, self).
Proof.
  intros Hc Hr. specialize (Hc self). unfold raises in Hr.
  destruct (c self) as [r self']; simpl in *. by subst.
Qed.

Lemma readonly_operator_of fw : readonly (operator_of fw).
Proof. destruct fw; simpl; auto with readonly. Qed.

Lemma unified_equation_raises self t fw e :
  raises (operator_of fw) self e →
  (∀ fw', (rank fw' < rank fw)%nat → ∃ v, returns (operator_of fw') self v) →
  unified_hyperfunctional_equation t self = (Raise e, self).
Proof.
  intros Hraise Hbefore.
  pose proof (raises_readonly _ _ _ (readonly_operator_of fw) Hraise) as Hr.
  assert (∀ fw', (rank fw' < rank fw)%nat →
            ∃ v, operator_of fw' self = (Ok v, self)) as Hok.
  { intros fw' Hlt. destruct (Hbefore fw' Hlt) as [v Hv]. exists v.
    by apply returns_readonly; [apply readonly_operator_of|]. }
  unfold unified_hyperfunctional_equation.
  destruct fw; cbn [operator_of] in Hr;
    repeat match goal with
      | |- (?op ≫= _) self = _ =>
          first
            [ by rewrite (bind_Raise _ _ _ _ _ Hr)
            | match op with
              | pestel_operator =>
                  destruct (Hok Pestel ltac:(simpl; lia)) as [? Hv]
              | five_forces_operator =>
                  destruct (Hok FiveForces ltac:(simpl; lia)) as [? Hv]
              | swot_operator =>
                  destruct (Hok Swot ltac:(simpl; lia)) as [? Hv]
              | bcg_operator =>
                  destruct (Hok Bcg ltac:(simpl; lia)) as [? Hv]
              | ansoff_operator =>
                  destruct (Hok Ansoff ltac:(simpl; lia)) as [? Hv]
              end;
              cbn [operator_of] in Hv; rewrite (bind_Ok _ _ _ _ _ Hv);
              clear Hv ]
      end.
Qed.

(** X14.  The unified equation evaluates the six operators in the order
    PESTEL, Five Forces, SWOT, BCG, Ansoff, Blue Ocean before it looks
    at the time step: when one of them raises and those before it
    return, the call raises that same exception for every [t], in range
    or not, and leaves the object as it was. *)
Theorem unified_equation_first_error
    (self : ISAF) (t : Z) (fw : framework) (e : exn) :
  raises (operator_of fw) self e →
  (∀ fw', (rank fw' < rank fw)%nat → ∃ v, returns (operator_of fw') self v) →
  unified_hyperfunctional_equation t self = (Raise e, self).
Proof. apply unified_equation_raises. Qed.

Lemma unified_equation_first_error_witness :
  unified_hyperfunctional_equation 7
    (state_after (set_bcg_data [Fin 1; Fin 2] [Fin 1; Fin 2; Fin 3]) scenario)
  = (Raise ValueError,
     state_after (set_bcg_data [Fin 1; Fin 2] [Fin 1; Fin 2; Fin 3]) scenario).
Proof.
  apply (unified_equation_first_error _ 7 Bcg ValueError).
  - reflexivity.
  - intros [] Hlt; simpl in Hlt; try lia.
    + exists (Fin 7).
      apply (pestel_operator_lookup scenario);
        [reflexivity | exact (scenario_pestel 3)].
    + exists (Fin 0.75). exact (scenario_five_forces 3).
    + exists (Fin 2).
      apply (swot_operator_lookup scenario);
        [reflexivity | exact (scenario_swot 3)].
Defined.

Lemma operators_all_or_first_error self :
  (∃ p f s b a o,
     returns pestel_operator self p ∧ returns five_forces_operator self f ∧
     returns swot_operator self s ∧ returns bcg_operator self b ∧
     returns ansoff_operator self a ∧ returns blue_ocean_operator self o) ∨
  (∃ fw e, raises (operator_of fw) self e ∧
     ∀ fw', (rank fw' < rank fw)%nat → ∃ v, returns (operator_of fw') self v).
Proof.
  unfold returns, raises.
  destruct (pestel_operator self).1 as [p|e] eqn:Hp; last first.
  { right. exists Pestel, e. split; [done|]. intros [] ?; simpl in *; lia. }
  destruct (five_forces_operator self).1 as [f|e] eqn:Hf; last first.
  { right. exists FiveForces, e. split; [done|].
    intros [] ?; simpl in *; try lia; eauto. }
  destruct (swot_operator self).1 as [s|e] eqn:Hs; last first.
  { right. exists Swot, e. split; [done|].
    intros [] ?; simpl in *; try lia; eauto. }
  destruct (bcg_operator self).1 as [b|e] eqn:Hb; last first.
  { right. exists Bcg, e. split; [done|].
    intros [] ?; simpl in *; try lia; eauto. }
  destruct (ansoff_operator self).1 as [a|e] eqn:Ha; last first.
  { right. exists Ansoff, e. split; [done|].
    intros [] ?; simpl in *; try lia; eauto. }
  destruct (blue_ocean_operator self).1 as [o|e] eqn:Ho; last first.
  { right. exists BlueOcean, e. split; [done|].
    intros [] ?; simpl in *; try lia; eauto. }
  left. by exists p, f, s, b, a, o.
Qed.

(** X15.  The unified equation reads the coefficient map at five
    ordered pairs only, an absent pair counting as 0.3: two objects
    with the same input sets and decay vector whose maps give the same
    coefficients at those five pairs get the same result, whatever else
    their maps hold (a reversed pair such as (five_forces, pestel) is
    never read). *)
Theorem unified_equation_coupling_keys (self self' : ISAF) (t : Z) :
  framework_data self' = framework_data self →
  temporal_coupling self' = temporal_coupling self →
  (∀ a b, (a, b) ∈ adjacent_pairs →
     default (Fin 0.3) (coupling_matrices self' !! (a, b))
     = default (Fin 0.3) (coupling_matrices self !! (a, b))) →
  (unified_hyperfunctional_equation t self').1
  = (unified_hyperfunctional_equation t self).1.
Proof.
  intros Hfd Htc Hcm.
  assert (∀ fw, (operator_of fw self').1 = (operator_of fw self).1) as Hop
    by (intros fw; apply operator_of_lookup; by rewrite Hfd).
  destruct (operators_all_or_first_error self)
    as [(p & f & s & b & a & o & Hp & Hf & Hs & Hb & Ha & Ho)
       |(fw & e & Hraise & Hbefore)].
  - rewrite (unified_hyperfunctional_equation_eval self t p f s b a o)
      by done.
    rewrite (unified_hyperfunctional_equation_eval self' t p f s b a o);
      [|unfold returns in *..].
    + cbn [fst]. rewrite Htc.
      unfold strategic_state, coupling_effect, coupling.
      rewrite !Hcm by (unfold adjacent_pairs; set_solver). done.
    + exact (eq_trans (Hop Pestel) Hp).
    + exact (eq_trans (Hop FiveForces) Hf).
    + exact (eq_trans (Hop Swot) Hs).
    + exact (eq_trans (Hop Bcg) Hb).
    + exact (eq_trans (Hop Ansoff) Ha).
    + exact (eq_trans (Hop BlueOcean) Ho).
  - rewrite (unified_equation_raises self t fw e) by done.
    rewrite (unified_equation_raises self' t fw e); [done| |].
    + unfold raises in *. by rewrite Hop.
    + intros fw' Hlt. destruct (Hbefore fw' Hlt) as [v Hv]. exists v.
      unfold returns in *. by rewrite Hop.
Qed.

Lemma unified_equation_coupling_keys_witness :
  (unified_hyperfunctional_equation 1
     {| time_horizon := 3;
        temporal_coupling := temporal_coupling scenario;
        framework_data := framework_data scenario;
        coupling_matrices :=
          <[("five_forces", "pestel") := Fin 9]>
            (<[("pestel", "five_forces") := Fin 0.3]> ∅) |}).1
  = (unified_hyperfunctional_equation 1 scenario).1.
Proof.
  apply (unified_equation_coupling_keys scenario).
  - reflexivity.
  - reflexivity.
  - intros a b Hab. unfold adjacent_pairs in Hab.
    repeat (apply elem_of_cons in Hab as [[= -> ->]|Hab]; [reflexivity|]).
    by apply elem_of_nil in Hab.
Defined.

(** ** The validator: ranges and shapes *)

Lemma fold_left_fadd_not_negative l acc :
  Forall not_negative l → not_negative acc →
  not_negative (fold_left fadd l acc).
Proof.
  intros Hl. revert acc. induction Hl as [|x l Hx Hl IH]; intros acc Hacc;
    [done|]. simpl. by apply IH, fadd_not_negative.
Qed.

Lemma fdiv_not_negative x y :
  not_negative x → not_negative y → not_negative (x / y).
Proof.
  destruct x as [a|s|], y as [b|s'|]; simpl; try done; intros Hx Hy.
  - destruct (Req_dec_T b 0).
    + destruct (Req_dec_T a 0); [done|]. simpl. by apply Rneg_nonneg.
    + simpl. apply Rmult_le_pos; [done|]. left. apply Rinv_0_lt_compat. lra.
  - subst s. by rewrite Rneg_nonneg.
Qed.

Lemma np_mean_not_negative l :
  Forall not_negative l → not_negative (np_mean l).
Proof.
  intros Hl. unfold np_mean, np_sum, of_len. apply fdiv_not_negative.
  - apply fold_left_fadd_not_negative; [done | simpl; lra].
  - simpl. apply pos_INR.
Qed.

Lemma fsqrt_not_negative x : not_negative (fsqrt x).
Proof.
  destruct x as [a|[]|]; simpl; try done.
  destruct (Rlt_dec a 0); simpl; [done | apply sqrt_pos].
Qed.

Lemma one_minus_not_negative q :
  not_negative q → is_nan (Fin 1 - q) ∨ fle (Fin 1 - q) (Fin 1).
Proof.
  destruct q as [a|s|]; simpl.
  - intros Ha. right. lra.
  - intros ->. by right.
  - by left.
Qed.

Lemma validate_model_cases self actual :
  (validate_model actual self).1 =
    match (mapM unified_hyperfunctional_equation
             (range (time_horizon self)) self).1 with
    | Ok predicted =>
        (λ residuals,
           {| RMSE := fsqrt (np_mean (squares residuals));
              MAE := np_mean (fabs <$> residuals);
              R_squared :=
                (Fin 1 - np_sum (squares residuals)
                         / np_sum (squares ((λ a, a - np_mean actual)%f64
                                              <$> actual)))%f64 |})
          <$> broadcast fsub actual predicted
    | Raise e => Raise e
    end.
Proof.
  pose proof (readonly_mapM unified_hyperfunctional_equation
                (range (time_horizon self))
                readonly_unified_hyperfunctional_equation self) as Hro.
  destruct (mapM unified_hyperfunctional_equation
              (range (time_horizon self)) self) as [[predicted|e] self']
    eqn:Hpred; simpl in Hro; subst self'.
  - by rewrite (validate_model_eval _ _ _ Hpred).
  - unfold validate_model, gets, mbind at 1, M_bind at 1.
    by rewrite (bind_Raise _ _ _ _ _ Hpred).
Qed.

(** X16.  Whatever the object and the observed outcomes, when the
    validator returns, its RMSE and its MAE are never negative and its
    R² is never above 1 (each of the three may be NaN). *)
Theorem validate_model_metric_ranges
    (self : ISAF) (actual_outcomes : list float64) :
  match (validate_model actual_outcomes self).1 with
  | Ok m =>
      not_negative (RMSE m) ∧ not_negative (MAE m) ∧
      (is_nan (R_squared m) ∨ fle (R_squared m) (Fin 1))
  | Raise _ => True
  end.
Proof.
  rewrite validate_model_cases.
  destruct (mapM unified_hyperfunctional_equation
              (range (time_horizon self)) self).1 as [predicted|e]; [|done].
  destruct (broadcast fsub actual_outcomes predicted) as [residuals|e];
    [|done].
  cbn [fmap result_fmap RMSE MAE R_squared]. split; [|split].
  - apply fsqrt_not_negative.
  - apply np_mean_not_negative, Forall_fmap, Forall_forall.
    intros x _. destruct x; simpl; [apply Rabs_pos | done | done].
  - apply one_minus_not_negative, fdiv_not_negative;
      apply np_sum_squares_not_negative.
Qed.

(** X17.  On an object that holds the six input sets, observed outcomes
    whose length is neither the time horizon nor one (a single outcome
    is broadcast) make the validator raise [ValueError]; the object is
    left as it was. *)
Theorem validate_model_shape_mismatch
    (self : ISAF) (p f s b a o : float64) (actual_outcomes : list float64) :
  constructed self →
  returns pestel_operator self p →
  returns five_forces_operator self f →
  returns swot_operator self s →
  returns bcg_operator self b →
  returns ansoff_operator self a →
  returns blue_ocean_operator self o →
  length actual_outcomes ≠ Z.to_nat (time_horizon self) →
  length actual_outcomes ≠ 1%nat →
  Z.to_nat (time_horizon self) ≠ 1%nat →
  validate_model actual_outcomes self = (Raise ValueError, self).
Proof.
  intros Hc Hp Hf Hs Hb Ha Ho Hlen H1 HT.
  rewrite (validate_model_eval _ _ _
             (predicted_outcomes_eval _ _ _ _ _ _ _ Hc Hp Hf Hs Hb Ha Ho)).
  by rewrite broadcast_mismatch by (by rewrite ?length_fmap, ?length_range).
Qed.

Lemma validate_model_shape_mismatch_witness :
  validate_model [Fin 1; Fin 2] scenario = (Raise ValueError, scenario).
Proof.
  apply (validate_model_shape_mismatch scenario
           (Fin 7) (Fin 0.75) (Fin 2) (Fin 0.1) (Fin 0.6) (Fin 2));
    [ exact (scenario_constructed 3) | exact (scenario_pestel 3)
    | exact (scenario_five_forces 3) | exact (scenario_swot 3)
    | exact (scenario_bcg 3) | exact (scenario_ansoff 3)
    | exact (scenario_blue_ocean 3) | simpl; lia | simpl; lia | simpl; lia ].
Defined.

(** ** The optimizer: what it leaves behind *)

Lemma objective_value_with_forces c c0 W self :
  objective_value c W (with_forces c0 W self) = objective_value c W self.
Proof. unfold objective_value. by rewrite with_forces_again. Qed.

(** X18.  The objective forgets the vector stored before it: evaluated
    right after another evaluation it returns, raises and leaves behind
    exactly what it does when evaluated first. *)
Theorem objective_forgets_previous_candidate
    (self : ISAF) (forces c0 c : list float64) (W : list (list float64)) :
  framework_data self !! "five_forces" = Some (FiveForcesData forces W) →
  objective c (state_after (objective c0) self) = objective c self.
Proof.
  intros H. unfold state_after at 1.
  rewrite (objective_eval _ _ _ c0 H). cbn [snd].
  rewrite (objective_eval _ _ _ c H).
  erewrite objective_eval by apply lookup_insert_eq.
  by rewrite objective_value_with_forces, with_forces_again.
Qed.

Lemma objective_forgets_previous_candidate_witness :
  objective [Fin 1; Fin 1]
    (state_after (objective [Fin 0.5; Fin 0.5]) scenario)
  = objective [Fin 1; Fin 1] scenario.
Proof.
  apply (objective_forgets_previous_candidate scenario [Fin 0.2; Fin 0.3]
           [Fin 0.5; Fin 0.5] [Fin 1; Fin 1] [[Fin 0; Fin 1]; [Fin 1; Fin 0]]).
  reflexivity.
Defined.

Lemma last_cons {A} (x : A) (l : list A) (d : A) :
  List.last (x :: l) d = List.last l x.
Proof.
  revert x d. induction l as [|y l IH]; intros x d; [done|].
  change (List.last (x :: y :: l) d) with (List.last (y :: l) d).
  by rewrite (IH y d), (IH y x).
Qed.

Lemma run_solver_last (s : solver) self forces c0 W :
  framework_data self !! "five_forces" = Some (FiveForcesData forces W) →
  state_after (run_solver objective s) (with_forces c0 W self)
  = with_forces
      (List.last (candidates (λ c, objective_value c W self) s) c0) W self.
Proof.
  intros H. revert c0. induction s as [res|c next IH]; intros c0; [done|].
  unfold state_after. cbn [run_solver candidates]. unfold mbind, M_bind.
  erewrite objective_eval by apply lookup_insert_eq.
  rewrite objective_value_with_forces, with_forces_again, last_cons.
  destruct (objective_value c W self) as [value|e]; [|done].
  apply IH.
Qed.

(** X19.  [optimize_strategy] leaves stored, as the Five Forces vector,
    the last candidate the solver evaluated (the vector stored before,
    if it evaluated none), next to the unchanged influence matrix,
    whether it returns or raises, and whatever point the solver
    reports. *)
Theorem optimize_strategy_leaves_last_candidate
    (minimize : list float64 → list (float64 * float64) → solver)
    (self : ISAF) (forces : list float64) (W : list (list float64)) :
  framework_data self !! "five_forces" = Some (FiveForcesData forces W) →
  state_after (optimize_strategy minimize) self
  = with_forces
      (List.last
         (candidates (λ c, objective_value c W self)
            (minimize (initial_guess (length forces))
               (bounds (length (initial_guess (length forces))))))
         forces) W self.
Proof.
  intros H. unfold state_after, optimize_strategy.
  rewrite (bind_Ok _ _ _ _ _ (getitem_Some _ _ _ H)).
  unfold five_forces_0, mbind at 1, M_bind at 1. cbn [mret M_ret].
  pose proof (run_solver_last
                (minimize (initial_guess (length forces))
                   (bounds (length (initial_guess (length forces)))))
                self forces forces W H) as Hlast.
  rewrite (with_forces_stored _ _ _ H) in Hlast.
  unfold state_after in Hlast. unfold mbind, M_bind.
  destruct (run_solver objective _ self) as [[res|e] self']; simpl in *;
    by subst.
Qed.

Lemma optimize_strategy_leaves_last_candidate_witness :
  state_after (optimize_strategy first_iterate) scenario
  = with_forces
      (List.last
         (candidates
            (λ c, objective_value c [[Fin 0; Fin 1]; [Fin 1; Fin 0]] scenario)
            (first_iterate (initial_guess 2) (bounds 2)))
         [Fin 0.2; Fin 0.3])
      [[Fin 0; Fin 1]; [Fin 1; Fin 0]] scenario.
Proof.
  apply (optimize_strategy_leaves_last_candidate first_iterate scenario
           [Fin 0.2; Fin 0.3] [[Fin 0; Fin 1]; [Fin 1; Fin 0]]).
  reflexivity.
Defined.

(** X20.  A failed optimization is not undone.  On an object with a
    Five Forces input set but no PESTEL input set and a time horizon of
    at least one step, the first evaluation of the objective raises
    [KeyError]; [optimize_strategy] raises it too, and the candidate of
    that evaluation has replaced the stored Five Forces vector. *)
Theorem optimize_strategy_failure_overwrites
    (minimize : list float64 → list (float64 * float64) → solver)
    (self : ISAF) (forces c : list float64) (W : list (list float64))
    (next : float64 → solver) :
  framework_data self !! "five_forces" = Some (FiveForcesData forces W) →
  framework_data self !! "pestel" = None →
  (1 ≤ time_horizon self)%Z →
  minimize (initial_guess (length forces))
    (bounds (length (initial_guess (length forces)))) = Evaluate c next →
  optimize_strategy minimize self = (Raise KeyError, with_forces c W self).
Proof.
  intros H Hpestel HT Hsolver. unfold optimize_strategy.
  rewrite (bind_Ok _ _ _ _ _ (getitem_Some _ _ _ H)).
  unfold five_forces_0, mbind at 1, M_bind at 1. cbn [mret M_ret].
  rewrite Hsolver. cbn [run_solver].
  assert (objective c self = (Raise KeyError, with_forces c W self)) as Hobj.
  { rewrite (objective_eval _ _ _ c H). f_equal. unfold objective_value.
    assert (∃ rest, range (time_horizon self) = 0%Z :: rest) as [rest ->].
    { unfold range. destruct (Z.to_nat (time_horizon self)) eqn:Hn; [lia|].
      simpl. eauto. }
    cbn [mapM].
    rewrite (bind_Raise _ _ _ KeyError (with_forces c W self)); [done|].
    apply (unified_equation_raises _ _ Pestel).
    - unfold raises. cbn [operator_of].
      rewrite (operator_missing Pestel); [done|].
      simpl. by rewrite lookup_insert_ne.
    - intros [] Hlt; simpl in Hlt; lia. }
  unfold mbind at 1, M_bind at 1.
  by rewrite (bind_Raise _ _ _ _ _ Hobj).
Qed.

Lemma optimize_strategy_failure_overwrites_witness :
  optimize_strategy first_iterate
    (state_after (set_five_forces_data [Fin 0.2; Fin 0.3]
                    [[Fin 0; Fin 1]; [Fin 1; Fin 0]]) (__init__ 3))
  = (Raise KeyError,
     with_forces (initial_guess 2) [[Fin 0; Fin 1]; [Fin 1; Fin 0]]
       (state_after (set_five_forces_data [Fin 0.2; Fin 0.3]
                       [[Fin 0; Fin 1]; [Fin 1; Fin 0]]) (__init__ 3))).
Proof.
  apply (optimize_strategy_failure_overwrites first_iterate _
           [Fin 0.2; Fin 0.3] (initial_guess 2)
           [[Fin 0; Fin 1]; [Fin 1; Fin 0]]
           (λ value, Report {| res_x := initial_guess 2; res_fun := value |}));
    [reflexivity | reflexivity | simpl; lia | reflexivity].
Defined.

(** ** The documentation clean-up script *)

Lemma is_emoji_true (c : N) :
  is_emoji c = true ↔
  (0x24C2 ≤ c ≤ 0x1F251 ∨ 0x1F300 ≤ c ≤ 0x1F5FF ∨ 0x1F600 ≤ c ≤ 0x1F64F
   ∨ 0x1F680 ≤ c ≤ 0x1FAFF)%N.
Proof.
  unfold is_emoji, emoji_ranges, in_range. cbn [existsb fst snd].
  rewrite !orb_true_iff, !andb_true_iff, !N.leb_le. lia.
Qed.

Lemma is_emoji_false (c : N) :
  is_emoji c = false ↔
  (c < 0x24C2 ∨ 0x1F251 < c < 0x1F300 ∨ 0x1F5FF < c < 0x1F600
   ∨ 0x1F64F < c < 0x1F680 ∨ 0x1FAFF < c)%N.
Proof.
  rewrite <- not_true_iff_false, is_emoji_true. lia.
Qed.

Lemma remove_emojis_filter (text : list N) :
  remove_emojis text = filter (λ c, is_emoji c = false) text.
Proof.
  induction text as [|c text IH]; [done|]. cbn [remove_emojis].
  rewrite filter_cons, IH.
  destruct (is_emoji c); by case_decide.
Qed.

(** X21.  [remove_emojis] deletes exactly the characters of four
    intervals of code points, U+24C2..U+1F251, U+1F300..U+1F5FF,
    U+1F600..U+1F64F and U+1F680..U+1FAFF, and keeps every other
    character, in order and with its repetitions: the last range of the
    pattern contains the Dingbats and flags ranges and everything
    between them. *)
Theorem remove_emojis_intervals (text : list N) :
  remove_emojis text
  = filter (λ c, (c < 0x24C2 ∨ 0x1F251 < c < 0x1F300 ∨ 0x1F5FF < c < 0x1F600
                  ∨ 0x1F64F < c < 0x1F680 ∨ 0x1FAFF < c)%N) text.
Proof.
  rewrite remove_emojis_filter.
  apply list_filter_iff. intros c. apply is_emoji_false.
Qed.

Lemma remove_emojis_clean (text : list N) :
  Forall (λ c, is_emoji c = false) (remove_emojis text).
Proof.
  rewrite remove_emojis_filter. apply Forall_forall. intros c Hc.
  by apply list_elem_of_filter in Hc as [? _].
Qed.

Lemma remove_emojis_id (text : list N) :
  Forall (λ c, is_emoji c = false) text → remove_emojis text = text.
Proof.
  induction 1 as [|c text Hc _ IH]; [done|].
  cbn [remove_emojis]. by rewrite Hc, IH.
Qed.

(** X22.  The result of [remove_emojis] holds no character of the
    pattern's class, and removing again changes nothing. *)
Theorem remove_emojis_idempotent (text : list N) :
  Forall (λ c, is_emoji c = false) (remove_emojis text)
  ∧ remove_emojis (remove_emojis text) = remove_emojis text.
Proof.
  split; [apply remove_emojis_clean|].
  apply remove_emojis_id, remove_emojis_clean.
Qed.

(** X23.  [remove_emojis] returns its argument unchanged exactly when
    the argument holds no character of the pattern's class; otherwise
    the result is strictly shorter. *)
Theorem remove_emojis_unchanged (text : list N) :
  (remove_emojis text = text ↔ Forall (λ c, is_emoji c = false) text)
  ∧ (remove_emojis text ≠ text →
     length (remove_emojis text) < length text).
Proof.
  assert (length (remove_emojis text) ≤ length text) as Hle.
  { rewrite remove_emojis_filter. apply length_filter. }
  split.
  - split; [|apply remove_emojis_id].
    intros <-. apply remove_emojis_clean.
  - intros Hne. destruct (decide (length (remove_emojis text) = length text))
      as [Heq|]; [|lia].
    destruct Hne. rewrite remove_emojis_filter in *.
    clear Hle. induction text as [|c text IH]; [done|].
    rewrite filter_cons in *. case_decide.
    + f_equal. apply IH. simpl in Heq. lia.
    + pose proof (length_filter (λ c, is_emoji c = false) text).
      simpl in Heq. lia.
Qed.

(** X24.  A character is deleted or kept on its own account: the result
    for a concatenation is the concatenation of the results, so a run
    of the class is removed the same way wherever the text is cut. *)
Theorem remove_emojis_app (s t : list N) :
  remove_emojis (s ++ t) = remove_emojis s ++ remove_emojis t.
Proof. rewrite !remove_emojis_filter. apply filter_app. Qed.

(** *** The loop over the files *)

Lemma files_NoDup : NoDup files.
Proof. apply (bool_decide_unpack _). by vm_compute. Qed.

Lemma clean_file_lookup os marks fs filename name :
  (clean_file os marks fs filename).1 !! name
  = if decide (name = filename) then cleaned os <$> fs !! name
    else fs !! name.
Proof.
  unfold clean_file. case_decide as Hn.
  - subst name.
    destruct (fs !! filename) as [[content []|]|] eqn:H, marks; cbn;
      rewrite ?lookup_insert_eq, ?H; done.
  - destruct (fs !! filename) as [[content []|]|], marks; cbn;
      rewrite ?lookup_insert_ne; done.
Qed.

Lemma clean_file_prints os fs filename :
  (clean_file os true fs filename).2 = Some (report filename (fs !! filename)).
Proof.
  unfold clean_file. by destruct (fs !! filename) as [[content []|]|].
Qed.

Lemma clean_file_stops os fs filename :
  (clean_file os false fs filename).2 = None.
Proof.
  unfold clean_file. by destruct (fs !! filename) as [[content []|]|].
Qed.

Lemma clean_files_cons os filename names fs log :
  clean_files os true (filename :: names) fs log
  = clean_files os true names (clean_file os true fs filename).1
      (log ++ [report filename (fs !! filename)]).
Proof.
  cbn [clean_files]. pose proof (clean_file_prints os fs filename) as H.
  destruct (clean_file os true fs filename) as [fs' line].
  simpl in H. by subst line.
Qed.

Lemma clean_files_stops os filename names fs log :
  clean_files os false (filename :: names) fs log
  = ((clean_file os false fs filename).1, log, false).
Proof.
  cbn [clean_files]. pose proof (clean_file_stops os fs filename) as H.
  destruct (clean_file os false fs filename) as [fs' line].
  simpl in H. by subst line.
Qed.

Lemma clean_files_lookup os names : ∀ fs log name,
  NoDup names →
  (clean_files os true names fs log).1.1 !! name
  = if decide (name ∈ names) then cleaned os <$> fs !! name else fs !! name.
Proof.
  induction names as [|filename names IH]; intros fs log name Hnd.
  - cbn [clean_files fst].
    destruct (decide (name ∈ [])) as [H|]; [by inversion H|done].
  - apply NoDup_cons in Hnd as [Hnotin Hnd].
    rewrite clean_files_cons, IH, clean_file_lookup by done.
    destruct (decide (name = filename)) as [->|Hne].
    + rewrite (decide_False (P := filename ∈ names)) by done.
      by rewrite (decide_True (P := filename ∈ filename :: names))
        by apply list_elem_of_here.
    + destruct (decide (name ∈ names)) as [Hin|Hnin].
      * by rewrite (decide_True (P := name ∈ filename :: names))
          by by apply list_elem_of_further.
      * rewrite (decide_False (P := name ∈ filename :: names)); [done|].
        intros Hc. by inversion Hc.
Qed.

Lemma clean_files_log os names : ∀ fs log,
  NoDup names →
  (clean_files os true names fs log).1.2
  = log ++ ((λ filename, report filename (fs !! filename)) <$> names)
  ∧ (clean_files os true names fs log).2 = true.
Proof.
  induction names as [|filename names IH]; intros fs log Hnd.
  - cbn. by rewrite app_nil_r.
  - apply NoDup_cons in Hnd as [Hnotin Hnd].
    rewrite clean_files_cons.
    destruct (IH (clean_file os true fs filename).1
                (log ++ [report filename (fs !! filename)]) Hnd) as [-> ->].
    split; [|done].
    rewrite fmap_cons, <- app_assoc. cbn [app]. do 2 f_equal.
    apply list_fmap_ext. intros i name Hname.
    rewrite clean_file_lookup, decide_False; [done|].
    intros ->. apply Hnotin. by eapply list_elem_of_lookup_2.
Qed.

Lemma clean_emojis_marks os fs :
  clean_emojis os true fs
  = ((clean_files os true files fs [Starting]).1.1,
     (clean_files os true files fs [Starting]).1.2 ++ [Completed], true).
Proof.
  unfold clean_emojis. cbn [print].
  pose proof (clean_files_log os files fs [Starting] files_NoDup) as [_ H].
  destruct (clean_files os true files fs [Starting]) as [[fs' log] ok].
  simpl in H. by subst ok.
Qed.

Lemma clean_emojis_no_marks os fs :
  clean_emojis os false fs
  = ((clean_file os false fs "AFAS_MVP_COMPLETION_PLAN.md").1,
     [Starting], false).
Proof.
  unfold clean_emojis, files. cbn [print]. by rewrite clean_files_stops.
Qed.

Lemma clean_emojis_lookup os marks fs name :
  (clean_emojis os marks fs).1.1 !! name
  = if decide (name ∈ reached marks files) then cleaned os <$> fs !! name
    else fs !! name.
Proof.
  destruct marks.
  - rewrite clean_emojis_marks. cbn [fst reached].
    apply clean_files_lookup, files_NoDup.
  - rewrite clean_emojis_no_marks. cbn [fst].
    rewrite clean_file_lookup.
    change (reached false files) with ["AFAS_MVP_COMPLETION_PLAN.md"%string].
    destruct (decide (name = "AFAS_MVP_COMPLETION_PLAN.md"%string))
      as [->|Hne].
    + by rewrite decide_True by apply list_elem_of_here.
    + rewrite decide_False; [done|].
      intros Hc. inversion Hc as [|? ? ? Hc']; [done|by inversion Hc'].
Qed.

Lemma reached_listed marks name : name ∈ reached marks files → name ∈ files.
Proof.
  destruct marks; [done|].
  change (reached false files) with ["AFAS_MVP_COMPLETION_PLAN.md"%string].
  intros Hc. inversion Hc as [|? ? ? Hc']; [|by inversion Hc'].
  apply list_elem_of_here.
Qed.

(** X25.  The script leaves alone every name that is not in its list,
    creates no file, and leaves unchanged what it cannot read as text
    or cannot write, whatever its standard output can encode. *)
Theorem clean_emojis_leaves_alone
    (os : platform) (marks : bool) (fs : gmap string entry) (name : string) :
  name ∉ files ∨ fs !! name = None ∨ fs !! name = Some Unreadable
  ∨ (∃ content, fs !! name = Some (Regular content false)) →
  (clean_emojis os marks fs).1.1 !! name = fs !! name.
Proof.
  intros H. rewrite clean_emojis_lookup.
  case_decide as Hin; [|done]. apply reached_listed in Hin.
  destruct H as [?|[->| [->|[content ->]]]]; done.
Qed.

Lemma clean_emojis_leaves_alone_witness :
  (clean_emojis Posix true
     {[ "notes.md"%string := Regular [72; 0x1F600]%N true ]}).1.1
    !! "notes.md"%string
  = ({[ "notes.md"%string := Regular [72; 0x1F600]%N true ]}
       : gmap string entry) !! "notes.md"%string.
Proof.
  apply (clean_emojis_leaves_alone Posix true
           {[ "notes.md"%string := Regular [72; 0x1F600]%N true ]}
           "notes.md"%string).
  left. apply (bool_decide_unpack _). by vm_compute.
Defined.

(** X26.  On a standard output that can encode the status marks, a
    listed file that can be read and written ends up holding its text
    with the line endings CR LF and CR read as LF, the characters of
    the class removed, and every LF written as the line separator of
    the platform; it stays writable.  On a standard output that cannot
    encode them this holds of the first listed file only: it is written
    before the script tries to print. *)
Theorem clean_emojis_rewrites
    (os : platform) (marks : bool) (fs : gmap string entry) (name : string)
    (content : list N) :
  name ∈ files →
  marks = true ∨ head files = Some name →
  fs !! name = Some (Regular content true) →
  (clean_emojis os marks fs).1.1 !! name
  = Some (Regular (write_text os (remove_emojis (read_text content))) true).
Proof.
  intros Hin Hreached H. rewrite clean_emojis_lookup, decide_True, H; [done|].
  destruct marks; [done|]. destruct Hreached as [|[= <-]]; [done|].
  apply list_elem_of_here.
Qed.

Lemma clean_emojis_rewrites_witness :
  (clean_emojis Windows true
     {[ "README.md"%string := Regular [72; 0x1F600; 13; 105]%N true ]}).1.1
    !! "README.md"%string
  = Some (Regular (write_text Windows
                     (remove_emojis (read_text [72; 0x1F600; 13; 105]%N)))
            true).
Proof.
  apply (clean_emojis_rewrites Windows true
           {[ "README.md"%string := Regular [72; 0x1F600; 13; 105]%N true ]}
           "README.md"%string [72; 0x1F600; 13; 105]%N).
  - apply (bool_decide_unpack _). by vm_compute.
  - by left.
  - reflexivity.
Defined.

(** X27.  On a standard output that can encode the status marks the
    script never stops early: whatever the working directory holds it
    prints the opening line, then one line for each listed file in the
    order of the list, then the closing line, and the line for a file
    depends only on what that name stood for before the run.  On a
    standard output that cannot encode them it prints the opening line
    only and stops with an exception at the first listed file, so that
    no other listed file is touched. *)
Theorem clean_emojis_prints (os : platform) (fs : gmap string entry) :
  ((clean_emojis os true fs).1.2
   = Starting
     :: ((λ filename,
            match fs !! filename with
            | Some (Regular _ true) => Cleaned filename
            | Some _ => ErrorCleaning filename
            | None => FileNotFound filename
            end) <$> files)
     ++ [Completed]
   ∧ (clean_emojis os true fs).2 = true)
  ∧ ((clean_emojis os false fs).1.2 = [Starting]
     ∧ (clean_emojis os false fs).2 = false
     ∧ ∀ name, head files ≠ Some name →
         (clean_emojis os false fs).1.1 !! name = fs !! name).
Proof.
  split.
  - rewrite clean_emojis_marks. cbn [fst snd]. split; [|done].
    by destruct (clean_files_log os files fs [Starting] files_NoDup) as [-> _].
  - rewrite clean_emojis_no_marks. cbn [fst snd]. split; [done|].
    split; [done|]. intros name Hname.
    rewrite clean_file_lookup, decide_False; [done|].
    intros ->. by destruct Hname.
Qed.

Lemma read_text_cons_not_cr c content :
  c ≠ 13%N → read_text (c :: content) = c :: read_text content.
Proof.
  intros Hc. cbn [read_text]. by apply N.eqb_neq in Hc as ->.
Qed.

Lemma read_text_no_cr_aux (n : nat) : ∀ content,
  length content ≤ n → Forall (λ c, c ≠ 13%N) (read_text content).
Proof.
  induction n as [|n IH]; intros [|c content] Hlen; simpl in Hlen;
    try (by constructor); try lia.
  cbn [read_text]. destruct (N.eqb_spec c 13) as [->|Hc].
  - destruct content as [|c' content]; [by repeat constructor|].
    simpl in Hlen.
    destruct (c' =? 10)%N; (constructor; [done|apply IH; simpl; lia]).
  - constructor; [done|]. apply IH. lia.
Qed.

Lemma read_text_no_cr content : Forall (λ c, c ≠ 13%N) (read_text content).
Proof. by apply (read_text_no_cr_aux (length content)). Qed.

Lemma remove_emojis_no_cr text :
  Forall (λ c, c ≠ 13%N) text → Forall (λ c, c ≠ 13%N) (remove_emojis text).
Proof.
  rewrite remove_emojis_filter. intros H.
  apply Forall_forall. intros c Hc%list_elem_of_filter.
  rewrite Forall_forall in H. apply H, Hc.
Qed.

Lemma read_write_text os text :
  Forall (λ c, c ≠ 13%N) text → read_text (write_text os text) = text.
Proof.
  intros H. unfold write_text.
  destruct os; cbn [linesep]; induction H as [|c text Hc _ IH]; try done;
    cbn [flat_map]; destruct (N.eqb_spec c 10) as [->|Hne]; cbn [app].
  - by rewrite read_text_cons_not_cr, IH.
  - by rewrite read_text_cons_not_cr, IH.
  - change (read_text (13%N :: 10%N :: ?l)) with (10%N :: read_text l).
    by rewrite IH.
  - by rewrite read_text_cons_not_cr, IH.
Qed.

Lemma cleaned_idempotent os e : cleaned os (cleaned os e) = cleaned os e.
Proof.
  destruct e as [content []|]; [|done..]. cbn [cleaned]. do 2 f_equal.
  rewrite read_write_text
    by apply remove_emojis_no_cr, read_text_no_cr.
  apply remove_emojis_id, remove_emojis_clean.
Qed.

(** X28.  Running the script a second time, on the same standard
    output, changes nothing: the files it wrote read back as the text it
    wrote, line endings included, and hold nothing left to remove. *)
Theorem clean_emojis_twice
    (os : platform) (marks : bool) (fs : gmap string entry) :
  (clean_emojis os marks (clean_emojis os marks fs).1.1).1.1
  = (clean_emojis os marks fs).1.1.
Proof.
  apply map_eq. intros name. rewrite !clean_emojis_lookup.
  case_decide; [|done].
  destruct (fs !! name) as [e|]; [|done].
  cbn [fmap option_fmap option_map]. by rewrite cleaned_idempotent.
Qed.
